(** * glTF-Transform: the Property base class over the reference graph

    A shallow embedding of [Property] (name, extras, extension attachment,
    clone, detach, listParents) together with the part of the graph engine
    it calls.  Objects live in a store indexed by addresses; a method takes
    the address of its receiver ([this]) and runs in a state-and-exception
    monad whose state survives a throw, as the JavaScript heap does. *)

From stdpp Require Import gmap strings list fin_maps.

Set Default Proof Using "Type".

(** ** Errors *)

Inductive Error : Type :=
  | InvalidOperation
  | InvalidState
  | NotImplemented.

Global Instance Error_eq_dec : EqDecision Error.
Proof. solve_decision. Defined.

(** ** Data model *)

(** A [Link] is an edge object.  Links are compared by identity in the
    program; [link_id] is that identity. *)
Record Link : Type := mkLink {
  link_id : nat;
  linkName : string;
  getParent : nat;
  getChild : nat;
}.

Global Instance Link_eq_dec : EqDecision Link.
Proof. solve_decision. Defined.

(** [_extras: object]: never interpreted by the graph. *)
Definition Extras : Type := list (string * string).

(** The fields of a [Property] object.  [extensionName] is declared by
    [ExtensionProperty] only: it is [None] on every other kind, the field
    being absent there.  [extensions] is the [@GraphChildList] array. *)
Record Property : Type := mkProperty {
  propertyType : string;
  extensionName : option string;
  _name : string;
  _extras : Extras;
  extensions : list Link;
  _disposed : bool;
}.

(** [ExtensionPropertyConstructor]: the lookup token, of which the methods
    read the static [EXTENSION_NAME] only. *)
Record ExtensionPropertyConstructor : Type := mkCtor {
  EXTENSION_NAME : string;
}.

(** The [PropertyGraph]: the objects it owns, and the registry of live
    links in creation order. *)
Record PropertyGraph : Type := mkGraph {
  nodes : gmap nat Property;
  links : list Link;
  nextLink : nat;
}.

Definition with_name (name : string) (p : Property) : Property :=
  mkProperty (propertyType p) (extensionName p) name (_extras p)
             (extensions p) (_disposed p).

Definition with_extras (extras : Extras) (p : Property) : Property :=
  mkProperty (propertyType p) (extensionName p) (_name p) extras
             (extensions p) (_disposed p).

Definition with_extensions (ls : list Link) (p : Property) : Property :=
  mkProperty (propertyType p) (extensionName p) (_name p) (_extras p)
             ls (_disposed p).

Definition with_disposed (b : bool) (p : Property) : Property :=
  mkProperty (propertyType p) (extensionName p) (_name p) (_extras p)
             (extensions p) b.

Definition with_nodes (ns : gmap nat Property) (g : PropertyGraph) : PropertyGraph :=
  mkGraph ns (links g) (nextLink g).

(** Field reads through an address. *)
Definition extensionsOf (g : PropertyGraph) (n : nat) : list Link :=
  match nodes g !! n with Some p => extensions p | None => [] end.

Definition extensionNameOf (g : PropertyGraph) (n : nat) : option string :=
  nodes g !! n ≫= extensionName.

Definition propertyTypeOf (g : PropertyGraph) (n : nat) : option string :=
  propertyType <$> nodes g !! n.

Definition isDisposed (g : PropertyGraph) (n : nat) : bool :=
  match nodes g !! n with Some p => _disposed p | None => false end.

(** A node the graph owns and that has not been disposed. *)
Definition isLive (g : PropertyGraph) (n : nat) : bool :=
  match nodes g !! n with Some p => negb (_disposed p) | None => false end.

(** ** The monad of methods *)

Definition M (A : Type) : Type := PropertyGraph → (Error + A) * PropertyGraph.

Definition ret {A} (a : A) : M A := λ g, (inr a, g).
Definition throw {A} (e : Error) : M A := λ g, (inl e, g).
Definition bind {A B} (m : M A) (k : A → M B) : M B := λ g,
  match m g with
  | (inl e, g') => (inl e, g')
  | (inr a, g') => k a g'
  end.
Definition gets {A} (f : PropertyGraph → A) : M A := λ g, (inr (f g), g).
Definition modify (f : PropertyGraph → PropertyGraph) : M unit := λ g, (inr tt, f g).

Notation "'let!' x ':=' m 'in' k" := (bind m (λ x, k))
  (at level 10, x name, m at level 100, k at level 200).
Notation "m ';;!' k" := (bind m (λ _, k))
  (at level 100, k at level 200, right associativity).

(** ** The graph engine *)

(** Modelled from the spec: the disposal of links, which [Link.dispose] and
    the registry's callbacks implement.  A link "may exist only between two
    live nodes", is held by the registry and by the list of the parent that
    owns it, and disappears from both when it is removed.  A list that does
    not hold the link is left as it is by the filter, so filtering every
    list is filtering the owner's. *)
Definition unlink (dead : Link → Prop) `{!∀ l, Decision (dead l)}
    (g : PropertyGraph) : PropertyGraph :=
  mkGraph ((λ p, with_extensions (filter (λ l, ¬ dead l) (extensions p)) p) <$> nodes g)
          (filter (λ l, ¬ dead l) (links g))
          (nextLink g).

(** Modelled from the spec: [PropertyGraph.link(name, parent, child)]
    "creates and registers a new outgoing link on parent pointing to child.
    Fails with InvalidOperation if either node belongs to a different graph
    instance or is already disposed." *)
Definition link (name : string) (parent child : nat) : M Link := λ g,
  if isLive g parent && isLive g child then
    let l := mkLink (nextLink g) name parent child in
    (inr l, mkGraph (nodes g) (links g ++ [l]) (S (nextLink g)))
  else (inl InvalidOperation, g).

(** Modelled from the spec: [PropertyGraph.disconnectParents(node, predicate)]
    "for every parent link pointing at node, if predicate(parent) is true,
    remove that link from the parent's owned list.  This does not touch
    node's own outgoing links."  The predicate is a closure over the heap.
    "Any operation invoked on an already-disposed node" is an
    [InvalidState]. *)
Definition disconnectParents (node : nat) (predicate : PropertyGraph → nat → bool) : M unit := λ g,
  if isDisposed g node then (inl InvalidState, g)
  else (inr tt, unlink (λ l, getChild l = node ∧ predicate g (getParent l) = true) g).

(** Modelled from the spec: [GraphNode.dispose()] "removes every outgoing
    link owned by node, then removes every incoming link pointing at node,
    then marks node disposed"; on a node already disposed it is an
    [InvalidState]. *)
Definition dispose (this : nat) : M unit := λ g,
  if isDisposed g this then (inl InvalidState, g)
  else
    let g1 := unlink (λ l, getParent l = this) g in
    let g2 := unlink (λ l, getChild l = this) g1 in
    (inr tt, with_nodes (alter (with_disposed true) this (nodes g2)) g2).

(** Keeps the first occurrence of every element. *)
Fixpoint distinct (l : list nat) : list nat :=
  match l with
  | [] => []
  | x :: l' => x :: filter (λ y, y ≠ x) (distinct l')
  end.

(** Modelled from the spec: [listParents(node)] "returns, in link-creation
    order, the distinct parent nodes holding a link to node". *)
Definition listGraphParents (this : nat) (g : PropertyGraph) : list nat :=
  distinct (getParent <$> filter (λ l, getChild l = this) (links g)).

(** Modelled from the spec: [GraphNode.addGraphChild(links, link)], the
    step "create a new link from the host to the supplied extension node";
    [listExtensions] is "in attachment order", so the link goes last.  The
    array passed by [Property] is always the receiver's [extensions]. *)
Definition addGraphChild (this : nat) (l : Link) : M nat :=
  modify (λ g, with_nodes
    (alter (λ p, with_extensions (extensions p ++ [l]) p) this (nodes g)) g) ;;!
  ret this.

(** Modelled from the spec: [GraphNode.removeGraphChild(links, child)], the
    step "remove the existing link ... (detach, not dispose: the previous
    extension node is not destroyed, only unlinked from this host)": the
    links of the receiver's [extensions] that point at [child] are
    removed. *)
Definition removeGraphChild (this : nat) (child : nat) : M nat := λ g,
  let pruned := filter (λ l, getChild l = child) (extensionsOf g this) in
  (inr this, unlink (λ l, l ∈ pruned) g).

(** ** Property *)

(** [constructor(graph, name = '')], for a concrete kind that supplies
    [propertyType] (and [extensionName] when it is an ExtensionProperty). *)
Definition construct (type : string) (extName : option string) (name : string) : M nat := λ g,
  let this := fresh (dom (nodes g)) in
  (inr this,
   with_nodes (<[this := mkProperty type extName name [] [] false]> (nodes g)) g).

Definition getName (this : nat) (g : PropertyGraph) : option string :=
  _name <$> nodes g !! this.

Definition setName (this : nat) (name : string) : M nat :=
  modify (λ g, with_nodes (alter (with_name name) this (nodes g)) g) ;;!
  ret this.

Definition getExtras (this : nat) (g : PropertyGraph) : option Extras :=
  _extras <$> nodes g !! this.

Definition setExtras (this : nat) (extras : Extras) : M nat :=
  modify (λ g, with_nodes (alter (with_extras extras) this (nodes g)) g) ;;!
  ret this.

(** [this.extensions.find(link => link.getChild().extensionName === name)] *)
Definition getExtension (this : nat) (ctor : ExtensionPropertyConstructor)
    (g : PropertyGraph) : option nat :=
  let name := EXTENSION_NAME ctor in
  let link := List.find
    (λ link, bool_decide (extensionNameOf g (getChild link) = Some name))
    (extensionsOf g this) in
  match link with Some link => Some (getChild link) | None => None end.

(** [extensionProperty] is [None] for [null].  The parameter's type makes
    [extensionProperty.extensionName] a string. *)
Definition setExtension (this : nat) (ctor : ExtensionPropertyConstructor)
    (extensionProperty : option nat) : M nat :=
  (* Remove previous extension. *)
  let! prevExtension := gets (getExtension this ctor) in
  match prevExtension with
  | Some prev => removeGraphChild this prev
  | None => ret this
  end ;;!
  (* Stop if deleting the extension. *)
  match extensionProperty with
  | None => ret this
  | Some ext =>
    (* Add next extension. *)
    let! name := gets (λ g, default EmptyString (extensionNameOf g ext)) in
    let! l := link name this ext in
    addGraphChild this l
  end.

Definition listExtensions (this : nat) (g : PropertyGraph) : list nat :=
  getChild <$> extensionsOf g this.

Definition clone (this : nat) : M nat := throw NotImplemented.

Definition detach (this : nat) : M nat :=
  (* Detaching should keep properties in the same Document, and attached to its root. *)
  disconnectParents this
    (λ g n, bool_decide (propertyTypeOf g n ≠ Some "Root"%string)) ;;!
  ret this.

Definition listParents (this : nat) (g : PropertyGraph) : list nat :=
  listGraphParents this g.


(** ** Sequences of calls *)

(** The calls a client of the class can make.  [CallLink] is the reference a
    concrete kind creates for one of its own fields. *)
Inductive Call : Type :=
  | CallConstruct (type : string) (extName : option string) (name : string)
  | CallSetName (this : nat) (name : string)
  | CallSetExtras (this : nat) (extras : Extras)
  | CallSetExtension (this : nat) (ctor : ExtensionPropertyConstructor)
                     (extensionProperty : option nat)
  | CallDetach (this : nat)
  | CallDispose (this : nat)
  | CallLink (name : string) (parent child : nat).

(** The heap a call leaves, whether it returns or throws. *)
Definition run (c : Call) (g : PropertyGraph) : PropertyGraph :=
  match c with
  | CallConstruct type extName name => snd (construct type extName name g)
  | CallSetName this name => snd (setName this name g)
  | CallSetExtras this extras => snd (setExtras this extras g)
  | CallSetExtension this ctor ext => snd (setExtension this ctor ext g)
  | CallDetach this => snd (detach this g)
  | CallDispose this => snd (dispose this g)
  | CallLink name parent child => snd (link name parent child g)
  end.

Fixpoint runAll (cs : list Call) (g : PropertyGraph) : PropertyGraph :=
  match cs with
  | [] => g
  | c :: cs => runAll cs (run c g)
  end.

(** The token of a [setExtension] call names the extension it attaches:
    [ctor.EXTENSION_NAME] is the value's own [extensionName]. *)
Definition tokenMatches (g : PropertyGraph) (c : Call) : Prop :=
  match c with
  | CallSetExtension _ ctor (Some ext) =>
      extensionNameOf g ext = Some (EXTENSION_NAME ctor)
  | _ => True
  end.

Fixpoint tokensMatch (cs : list Call) (g : PropertyGraph) : Prop :=
  match cs with
  | [] => True
  | c :: cs => tokenMatches g c ∧ tokensMatch cs (run c g)
  end.

Definition emptyGraph : PropertyGraph := mkGraph ∅ [] 0.

(** ** Observations used by the statements *)

(** The extension links of [h] whose child carries the identifier [id]. *)
Definition linksFor (g : PropertyGraph) (h : nat) (id : string) : list Link :=
  filter (λ l, extensionNameOf g (getChild l) = Some id) (extensionsOf g h).

(** The registered links that leave [n]. *)
Definition outgoing (g : PropertyGraph) (n : nat) : list Link :=
  filter (λ l, getParent l = n) (links g).

(** The heap after the first step of [setExtension]. *)
Definition afterRemoval (this : nat) (ctor : ExtensionPropertyConstructor)
    (g : PropertyGraph) : PropertyGraph :=
  match getExtension this ctor g with
  | Some prev => snd (removeGraphChild this prev g)
  | None => g
  end.

(** The link that [setExtension] creates for [ext] on the heap [g], and the
    heap once it is registered and pushed on the receiver's [extensions]. *)
Definition newLink (this ext : nat) (g : PropertyGraph) : Link :=
  mkLink (nextLink g) (default EmptyString (extensionNameOf g ext)) this ext.

Definition attached (this : nat) (l : Link) (g : PropertyGraph) : PropertyGraph :=
  mkGraph (alter (λ p, with_extensions (extensions p ++ [l]) p) this (nodes g))
          (links g ++ [l])
          (S (nextLink g)).

(** The linear scan of the extension links, as the specification words
    [getExtension]: the child of the first link whose child carries the
    token's identifier, or nothing. *)
Fixpoint getExtension_scan (g : PropertyGraph) (name : string)
    (ls : list Link) : option nat :=
  match ls with
  | [] => None
  | l :: ls =>
      if decide (extensionNameOf g (getChild l) = Some name)
      then Some (getChild l)
      else getExtension_scan g name ls
  end.

(** Every extension link is owned by its parent, registered, and points at
    a node of the graph. *)
Definition owned (g : PropertyGraph) : Prop :=
  ∀ h l, l ∈ extensionsOf g h →
    getParent l = h ∧ l ∈ links g ∧ is_Some (nodes g !! getChild l).

(** At most one extension link per identifier, on every host. *)
Definition atMostOne (g : PropertyGraph) : Prop :=
  ∀ h id, length (linksFor g h id) ≤ 1.

(** [g'] comes from [g] by steps that keep every node and its identifier,
    and at most drop links from the extension lists, a link dropped from
    the registry being dropped from the lists too. *)
Definition shrinks (g g' : PropertyGraph) : Prop :=
  (∀ n, extensionsOf g' n `sublist_of` extensionsOf g n)
  ∧ (∀ n, is_Some (nodes g !! n) →
       is_Some (nodes g' !! n) ∧ extensionNameOf g' n = extensionNameOf g n)
  ∧ (∀ h l, l ∈ extensionsOf g' h → l ∈ links g → l ∈ links g').

(** ** Example heaps *)

(** A host and two extension nodes of the same identifier, none attached. *)
Definition twoValues (id : string) : PropertyGraph :=
  runAll [CallConstruct "Mesh" None "host";
          CallConstruct "Ext" (Some id) "first";
          CallConstruct "Ext" (Some id) "second"] emptyGraph.

(** Host 0 with the extensions 1 ("A") and 2 ("B") attached in this order,
    and a third extension node 3 ("A") not attached. *)
Definition twoExtensions : PropertyGraph :=
  runAll [CallConstruct "Mesh" None "host";
          CallConstruct "ExtA" (Some "A"%string) "a";
          CallConstruct "ExtB" (Some "B"%string) "b";
          CallConstruct "ExtA" (Some "A"%string) "a2";
          CallSetExtension 0 (mkCtor "A") (Some 1);
          CallSetExtension 0 (mkCtor "B") (Some 2)] emptyGraph.

(** A texture 3 referenced by the root 0 and by the materials 1 and 2, and
    itself holding an extension 4. *)
Definition sharedTexture : PropertyGraph :=
  runAll [CallConstruct "Root" None "root";
          CallConstruct "Material" None "matA";
          CallConstruct "Material" None "matB";
          CallConstruct "Texture" None "tex";
          CallConstruct "Ext" (Some "VENDOR_x"%string) "ext";
          CallLink "textures" 0 3;
          CallLink "baseColorTexture" 1 3;
          CallLink "emissiveTexture" 2 3;
          CallSetExtension 3 (mkCtor "VENDOR_x") (Some 4)] emptyGraph.

(** Host 0 with the extension 1 ("X") attached, and an extension node 2
    ("X") that has been disposed. *)
Definition disposedValue : PropertyGraph :=
  runAll [CallConstruct "Mesh" None "host";
          CallConstruct "Ext" (Some "X"%string) "old";
          CallConstruct "Ext" (Some "X"%string) "gone";
          CallSetExtension 0 (mkCtor "X") (Some 1);
          CallDispose 2] emptyGraph.

(** An extension node 2 ("X") referenced by the root 0 and by the material
    1, and attached to itself as its own extension. *)
Definition selfExtension : PropertyGraph :=
  runAll [CallConstruct "Root" None "root";
          CallConstruct "Material" None "mat";
          CallConstruct "Ext" (Some "X"%string) "ext";
          CallLink "extensions" 0 2;
          CallLink "clearcoat" 1 2;
          CallSetExtension 2 (mkCtor "X") (Some 2)] emptyGraph.

(** * Proofs *)

(** ** Removing links *)

Section unlink_facts.
Context (dead : Link → Prop) `{!∀ l, Decision (dead l)}.

Lemma unlink_lookup g n :
  nodes (unlink dead g) !! n
  = (λ p, with_extensions (filter (λ l, ¬ dead l) (extensions p)) p) <$> nodes g !! n.
Proof. apply lookup_fmap. Qed.

(** A field read through an address, after [unlink]: look the node up and
    compare the fields. *)
Local Ltac read_field g n :=
  rewrite unlink_lookup; destruct (nodes g !! n); reflexivity.

Lemma unlink_extensionsOf g n :
  extensionsOf (unlink dead g) n = filter (λ l, ¬ dead l) (extensionsOf g n).
Proof. unfold extensionsOf. read_field g n. Qed.

Lemma unlink_extensionNameOf g n :
  extensionNameOf (unlink dead g) n = extensionNameOf g n.
Proof. unfold extensionNameOf. read_field g n. Qed.

Lemma unlink_propertyTypeOf g n :
  propertyTypeOf (unlink dead g) n = propertyTypeOf g n.
Proof. unfold propertyTypeOf. read_field g n. Qed.

Lemma unlink_isDisposed g n : isDisposed (unlink dead g) n = isDisposed g n.
Proof. unfold isDisposed. read_field g n. Qed.

Lemma unlink_isLive g n : isLive (unlink dead g) n = isLive g n.
Proof. unfold isLive. read_field g n. Qed.

Lemma unlink_is_Some g n :
  is_Some (nodes (unlink dead g) !! n) ↔ is_Some (nodes g !! n).
Proof. rewrite unlink_lookup. apply fmap_is_Some. Qed.

Lemma unlink_links g : links (unlink dead g) = filter (λ l, ¬ dead l) (links g).
Proof. reflexivity. Qed.
End unlink_facts.

(** Nothing is removed when no link is dead. *)
Lemma filter_all {A} (P : A → Prop) `{!∀ x, Decision (P x)} (l : list A) :
  Forall P l → filter P l = l.
Proof.
  induction 1 as [|x l Hx _ IH]; [reflexivity|].
  rewrite filter_cons_True by assumption. by rewrite IH.
Qed.

Lemma filter_none {A} (P : A → Prop) `{!∀ x, Decision (P x)} (l : list A) :
  Forall (λ x, ¬ P x) l → filter P l = [].
Proof.
  induction 1 as [|x l Hx _ IH]; [reflexivity|].
  rewrite filter_cons_False by assumption. exact IH.
Qed.

Lemma filter_ext_in {A} (P Q : A → Prop)
    `{!∀ x, Decision (P x), !∀ x, Decision (Q x)} (l : list A) :
  (∀ x, x ∈ l → P x ↔ Q x) → filter P l = filter Q l.
Proof.
  induction l as [|a l IH]; intros Hiff; [reflexivity|].
  assert (Ha : P a ↔ Q a) by (apply Hiff; left).
  assert (Hl : filter P l = filter Q l).
  { apply IH. intros x Hx. apply Hiff. by right. }
  destruct (decide (P a)) as [HP|HP].
  - rewrite !filter_cons_True by tauto. by rewrite Hl.
  - rewrite !filter_cons_False by tauto. exact Hl.
Qed.

(** Pruning the links of a list that point at [c] keeps those that do not. *)
Lemma filter_not_pruned (c : nat) (ls : list Link) :
  filter (λ l, ¬ l ∈ filter (λ l', getChild l' = c) ls) ls
  = filter (λ l, getChild l ≠ c) ls.
Proof.
  apply filter_ext_in. intros l Hl.
  rewrite list_elem_of_filter. tauto.
Qed.

(** ** The scan of [getExtension] *)

Lemma getExtension_is_scan this ctor g :
  getExtension this ctor g
  = getExtension_scan g (EXTENSION_NAME ctor) (extensionsOf g this).
Proof.
  unfold getExtension. cbv zeta.
  induction (extensionsOf g this) as [|l ls IH]; [reflexivity|].
  cbn [List.find getExtension_scan].
  destruct (decide (extensionNameOf g (getChild l) = Some (EXTENSION_NAME ctor)))
    as [Hl|Hl].
  - by rewrite bool_decide_eq_true_2.
  - by rewrite bool_decide_eq_false_2.
Qed.

Lemma scan_Some g name ls c :
  getExtension_scan g name ls = Some c ↔
  ∃ l1 l l2, ls = l1 ++ l :: l2 ∧ getChild l = c
    ∧ extensionNameOf g c = Some name
    ∧ Forall (λ l', extensionNameOf g (getChild l') ≠ Some name) l1.
Proof.
  induction ls as [|x ls IH]; cbn [getExtension_scan].
  - split; [discriminate|]. intros (l1 & l & l2 & Heq & _).
    by destruct l1.
  - destruct (decide (extensionNameOf g (getChild x) = Some name)) as [Hx|Hx].
    + split.
      * intros [= <-]. exists [], x, ls. by repeat split.
      * intros (l1 & l & l2 & Heq & Hc & _ & Hl1).
        destruct l1 as [|y l1]; injection Heq as -> ?; [by rewrite Hc|].
        by inversion Hl1.
    + rewrite IH. split.
      * intros (l1 & l & l2 & -> & Hc & Hn & Hl1).
        exists (x :: l1), l, l2. repeat split; [done..|]. by constructor.
      * intros (l1 & l & l2 & Heq & Hc & Hn & Hl1).
        destruct l1 as [|y l1]; injection Heq as -> ?.
        { subst c. contradiction. }
        exists l1, l, l2. repeat split; [done..|]. by inversion Hl1.
Qed.

Lemma scan_None g name ls :
  getExtension_scan g name ls = None ↔
  Forall (λ l, extensionNameOf g (getChild l) ≠ Some name) ls.
Proof.
  induction ls as [|x ls IH]; cbn [getExtension_scan].
  - split; [constructor|done].
  - destruct (decide (extensionNameOf g (getChild x) = Some name)) as [Hx|Hx].
    + split; [discriminate|]. by inversion 1.
    + rewrite IH. split; [by constructor|by inversion 1].
Qed.

(** An identifier with no extension link is not found, and conversely. *)
Lemma getExtension_None this ctor g :
  getExtension this ctor g = None ↔ linksFor g this (EXTENSION_NAME ctor) = [].
Proof.
  rewrite getExtension_is_scan, scan_None. unfold linksFor. split.
  - apply filter_none.
  - intros Hnil. apply Forall_forall. intros l Hl Hn.
    assert (Hin : l ∈ filter (λ l, extensionNameOf g (getChild l)
                                   = Some (EXTENSION_NAME ctor)) (extensionsOf g this))
      by (apply list_elem_of_filter; done).
    rewrite Hnil in Hin. by apply not_elem_of_nil in Hin.
Qed.

(** ** The steps of [setExtension] *)

Lemma removeGraphChild_extensionsOf this prev g :
  extensionsOf (snd (removeGraphChild this prev g)) this
  = filter (λ l, getChild l ≠ prev) (extensionsOf g this).
Proof.
  unfold removeGraphChild. cbn [snd].
  rewrite unlink_extensionsOf. apply filter_not_pruned.
Qed.

Lemma afterRemoval_extensionsOf this ctor g :
  extensionsOf (afterRemoval this ctor g) this
  = match getExtension this ctor g with
    | Some prev => filter (λ l, getChild l ≠ prev) (extensionsOf g this)
    | None => extensionsOf g this
    end.
Proof.
  unfold afterRemoval. destruct (getExtension this ctor g); [|reflexivity].
  apply removeGraphChild_extensionsOf.
Qed.

(** What the removal step leaves alone. *)
Lemma afterRemoval_frame this ctor g :
  (∀ n, extensionNameOf (afterRemoval this ctor g) n = extensionNameOf g n)
  ∧ (∀ n, propertyTypeOf (afterRemoval this ctor g) n = propertyTypeOf g n)
  ∧ (∀ n, isDisposed (afterRemoval this ctor g) n = isDisposed g n)
  ∧ (∀ n, isLive (afterRemoval this ctor g) n = isLive g n)
  ∧ (∀ n, is_Some (nodes (afterRemoval this ctor g) !! n) ↔ is_Some (nodes g !! n))
  ∧ (∀ n, extensionsOf (afterRemoval this ctor g) n `sublist_of` extensionsOf g n)
  ∧ links (afterRemoval this ctor g) `sublist_of` links g
  ∧ nextLink (afterRemoval this ctor g) = nextLink g.
Proof.
  unfold afterRemoval. destruct (getExtension this ctor g) as [prev|].
  - unfold removeGraphChild. cbn [snd]. repeat split.
    + intros n. apply unlink_extensionNameOf.
    + intros n. apply unlink_propertyTypeOf.
    + intros n. apply unlink_isDisposed.
    + intros n. apply unlink_isLive.
    + apply unlink_is_Some.
    + apply unlink_is_Some.
    + intros n. rewrite unlink_extensionsOf. apply sublist_filter.
    + rewrite unlink_links. apply sublist_filter.
  - repeat split; try done.
Qed.

Lemma setExtension_null this ctor g :
  setExtension this ctor None g = (inr this, afterRemoval this ctor g).
Proof.
  unfold setExtension, afterRemoval, bind, gets.
  destruct (getExtension this ctor g); reflexivity.
Qed.

Lemma setExtension_some this ctor ext g :
  setExtension this ctor (Some ext) g
  = let g1 := afterRemoval this ctor g in
    if isLive g this && isLive g ext
    then (inr this, attached this (newLink this ext g1) g1)
    else (inl InvalidOperation, g1).
Proof.
  pose proof (afterRemoval_frame this ctor g) as (_ & _ & _ & Hlive & _).
  cbv zeta. rewrite <- !Hlive.
  unfold setExtension, afterRemoval, bind, gets.
  destruct (getExtension this ctor g) as [prev|]; cbn [removeGraphChild ret fst snd];
    unfold link; (match goal with |- context [isLive ?a this && isLive ?a ext] =>
                   destruct (isLive a this && isLive a ext) end); reflexivity.
Qed.

Lemma filter_sublist_mono {A} (P : A → Prop) `{!∀ x, Decision (P x)} (l1 l2 : list A) :
  l1 `sublist_of` l2 → filter P l1 `sublist_of` filter P l2.
Proof.
  induction 1 as [|x l1 l2 _ IH|x l1 l2 _ IH]; [constructor| |].
  - rewrite !filter_cons. destruct (decide (P x)); [by constructor|done].
  - rewrite filter_cons. destruct (decide (P x)); [by constructor|done].
Qed.

Lemma sublist_elem_of {A} (l1 l2 : list A) x :
  l1 `sublist_of` l2 → x ∈ l1 → x ∈ l2.
Proof.
  induction 1 as [|y l1 l2 _ IH|y l1 l2 _ IH]; [done| |].
  - rewrite !elem_of_cons. intros [Hx|Hx]; [by left|right; by apply IH].
  - intros Hx. right. by apply IH.
Qed.

(** ** Links per identifier *)

(** [linksFor] reads the extension list of the host and the identifiers of
    its children only. *)
Lemma linksFor_frame g g' h id :
  extensionsOf g' h = extensionsOf g h →
  (∀ l, l ∈ extensionsOf g h →
     extensionNameOf g' (getChild l) = extensionNameOf g (getChild l)) →
  linksFor g' h id = linksFor g h id.
Proof.
  intros Hext Hname. unfold linksFor. rewrite Hext.
  apply filter_ext_in. intros l Hl. by rewrite Hname.
Qed.

Lemma linksFor_sublist g g' h id :
  extensionsOf g' h `sublist_of` extensionsOf g h →
  (∀ l, l ∈ extensionsOf g h →
     extensionNameOf g' (getChild l) = extensionNameOf g (getChild l)) →
  linksFor g' h id `sublist_of` linksFor g h id.
Proof.
  intros Hsub Hname. unfold linksFor.
  rewrite (filter_ext_in _ (λ l, extensionNameOf g (getChild l) = Some id)).
  - by apply filter_sublist_mono.
  - intros l Hl. rewrite Hname; [done|]. by eapply sublist_elem_of.
Qed.

(** The first match of the scan is among the links for the identifier. *)
Lemma getExtension_Some_linksFor this ctor g prev :
  getExtension this ctor g = Some prev →
  extensionNameOf g prev = Some (EXTENSION_NAME ctor)
  ∧ ∃ l, l ∈ linksFor g this (EXTENSION_NAME ctor) ∧ getChild l = prev.
Proof.
  rewrite getExtension_is_scan, scan_Some.
  intros (l1 & l & l2 & Heq & Hc & Hn & _). split; [done|].
  exists l. split; [|done]. unfold linksFor. apply list_elem_of_filter.
  rewrite Heq, Hc. split; [done|]. apply elem_of_app. right. left.
Qed.

Lemma afterRemoval_linksFor this ctor g id :
  linksFor (afterRemoval this ctor g) this id
  = match getExtension this ctor g with
    | Some prev => filter (λ l, getChild l ≠ prev) (linksFor g this id)
    | None => linksFor g this id
    end.
Proof.
  pose proof (afterRemoval_frame this ctor g) as (Hname & _).
  unfold linksFor. rewrite afterRemoval_extensionsOf.
  destruct (getExtension this ctor g) as [prev|].
  - rewrite list_filter_filter.
    rewrite (list_filter_filter (λ l, getChild l ≠ prev)).
    apply list_filter_iff. intros l. rewrite Hname. tauto.
  - apply list_filter_iff. intros l. by rewrite Hname.
Qed.

(** With at most one link for the token's identifier, the removal step
    leaves none. *)
Lemma afterRemoval_clears this ctor g :
  length (linksFor g this (EXTENSION_NAME ctor)) ≤ 1 →
  linksFor (afterRemoval this ctor g) this (EXTENSION_NAME ctor) = [].
Proof.
  intros Hone. rewrite afterRemoval_linksFor.
  destruct (getExtension this ctor g) as [prev|] eqn:Hget.
  - apply getExtension_Some_linksFor in Hget as (_ & l & Hl & Hc).
    destruct (linksFor g this (EXTENSION_NAME ctor)) as [|l0 [|l1 ls]];
      [by apply not_elem_of_nil in Hl| |simpl in Hone; lia].
    apply list_elem_of_singleton in Hl as ->.
    by rewrite filter_cons_False by (intros Hne; by apply Hne).
  - by apply getExtension_None.
Qed.

(** The links for the other identifiers survive the removal step. *)
Lemma afterRemoval_others this ctor g id :
  id ≠ EXTENSION_NAME ctor →
  linksFor (afterRemoval this ctor g) this id = linksFor g this id.
Proof.
  intros Hid. rewrite afterRemoval_linksFor.
  destruct (getExtension this ctor g) as [prev|] eqn:Hget; [|reflexivity].
  apply getExtension_Some_linksFor in Hget as (Hprev & _).
  apply filter_all, Forall_forall. intros l Hl Hc.
  apply list_elem_of_filter in Hl as (Hn & _).
  rewrite Hc, Hprev in Hn. congruence.
Qed.

(** ** Pushing the new link *)

Lemma attached_lookup this l g n :
  nodes (attached this l g) !! n
  = if decide (this = n)
    then (λ p, with_extensions (extensions p ++ [l]) p) <$> nodes g !! n
    else nodes g !! n.
Proof.
  unfold attached. cbn [nodes]. destruct (decide (this = n)) as [->|Hne].
  - apply lookup_alter_eq.
  - by apply lookup_alter_ne.
Qed.

Lemma attached_extensionsOf_this this l g :
  is_Some (nodes g !! this) →
  extensionsOf (attached this l g) this = extensionsOf g this ++ [l].
Proof.
  intros [p Hp]. unfold extensionsOf. rewrite attached_lookup, decide_True by done.
  by rewrite Hp.
Qed.

Lemma attached_extensionsOf_other this l g n :
  n ≠ this → extensionsOf (attached this l g) n = extensionsOf g n.
Proof.
  intros Hne. unfold extensionsOf. by rewrite attached_lookup, decide_False by done.
Qed.

Lemma attached_frame this l g :
  (∀ n, extensionNameOf (attached this l g) n = extensionNameOf g n)
  ∧ (∀ n, propertyTypeOf (attached this l g) n = propertyTypeOf g n)
  ∧ (∀ n, isDisposed (attached this l g) n = isDisposed g n)
  ∧ (∀ n, isLive (attached this l g) n = isLive g n)
  ∧ (∀ n, is_Some (nodes (attached this l g) !! n) ↔ is_Some (nodes g !! n)).
Proof.
  split_and!; intros n;
    unfold extensionNameOf, propertyTypeOf, isDisposed, isLive;
    rewrite attached_lookup; destruct (decide (this = n));
    try done; destruct (nodes g !! n); try done.
Qed.

Lemma isLive_is_Some g n : isLive g n = true → is_Some (nodes g !! n).
Proof. unfold isLive. destruct (nodes g !! n); [eauto|discriminate]. Qed.

Lemma isLive_not_disposed g n : isLive g n = true → isDisposed g n = false.
Proof.
  unfold isLive, isDisposed. destruct (nodes g !! n) as [p|]; [|done].
  by destruct (_disposed p).
Qed.

(** ** Steps that only drop links *)

Lemma shrinks_refl g : shrinks g g.
Proof. by split_and!. Qed.

Lemma shrinks_trans g1 g2 g3 : shrinks g1 g2 → shrinks g2 g3 → shrinks g1 g3.
Proof.
  intros (Hs1 & Hn1 & Hl1) (Hs2 & Hn2 & Hl2). split_and!.
  - intros n. etrans; [apply Hs2|apply Hs1].
  - intros n Hn. destruct (Hn1 n Hn) as [Hn' Heq].
    destruct (Hn2 n Hn') as [Hn'' Heq']. split; [done|congruence].
  - intros h l Hl Hreg. apply (Hl2 h l Hl). apply (Hl1 h l); [|done].
    eapply sublist_elem_of; [apply Hs2|done].
Qed.

Lemma shrinks_unlink (dead : Link → Prop) `{!∀ l, Decision (dead l)} g :
  shrinks g (unlink dead g).
Proof.
  split_and!.
  - intros n. rewrite unlink_extensionsOf. apply sublist_filter.
  - intros n Hn. split; [by apply unlink_is_Some|apply unlink_extensionNameOf].
  - intros h l. rewrite unlink_extensionsOf, unlink_links, !list_elem_of_filter.
    tauto.
Qed.

(** A field update that keeps [extensions] and [extensionName]. *)
Lemma shrinks_alter (f : Property → Property) this g :
  (∀ p, extensions (f p) = extensions p) →
  (∀ p, extensionName (f p) = extensionName p) →
  shrinks g (with_nodes (alter f this (nodes g)) g).
Proof.
  intros Hext Hname.
  assert (Hlook : ∀ n, nodes (with_nodes (alter f this (nodes g)) g) !! n
                       = if decide (this = n) then f <$> nodes g !! n else nodes g !! n).
  { intros n. cbn [with_nodes nodes]. destruct (decide (this = n)) as [->|Hne].
    - apply lookup_alter_eq.
    - by apply lookup_alter_ne. }
  split_and!.
  - intros n. unfold extensionsOf. rewrite Hlook.
    destruct (decide (this = n)); [|done].
    destruct (nodes g !! n); cbn; [by rewrite Hext|done].
  - intros n Hn. unfold extensionNameOf. rewrite Hlook.
    destruct (decide (this = n)); [|done].
    destruct (nodes g !! n); cbn; [|done]. split; [eauto|by rewrite Hname].
  - by intros h l _ Hl.
Qed.

Lemma shrinks_construct type extName name g :
  shrinks g (snd (construct type extName name g)).
Proof.
  unfold construct. cbn [snd].
  set (this := fresh (dom (nodes g))).
  assert (Hfresh : nodes g !! this = None).
  { apply not_elem_of_dom. apply is_fresh. }
  assert (Hlook : ∀ n, is_Some (nodes g !! n) →
            nodes (with_nodes (<[this:=mkProperty type extName name [] [] false]> (nodes g)) g) !! n
            = nodes g !! n).
  { intros n Hn. cbn [with_nodes nodes]. apply lookup_insert_ne.
    intros ->. rewrite Hfresh in Hn. by destruct Hn. }
  split_and!.
  - intros n. unfold extensionsOf at 2.
    destruct (nodes g !! n) as [p|] eqn:Hp.
    + unfold extensionsOf. rewrite Hlook by (rewrite Hp; eauto). by rewrite Hp.
    + unfold extensionsOf. cbn [with_nodes nodes].
      destruct (decide (this = n)) as [<-|Hne].
      * by rewrite lookup_insert_eq.
      * rewrite lookup_insert_ne by done. by rewrite Hp.
  - intros n Hn. unfold extensionNameOf. rewrite Hlook by done. done.
  - by intros h l _ Hl.
Qed.

Lemma shrinks_link name parent child g :
  shrinks g (snd (link name parent child g)).
Proof.
  unfold link. destruct (isLive g parent && isLive g child); cbn [snd];
    [|apply shrinks_refl].
  split_and!; [done|done|]. intros h l _ Hl. cbn [links].
  apply elem_of_app. by left.
Qed.

Lemma shrinks_afterRemoval this ctor g : shrinks g (afterRemoval this ctor g).
Proof.
  unfold afterRemoval. destruct (getExtension this ctor g); [|apply shrinks_refl].
  unfold removeGraphChild. cbn [snd]. apply shrinks_unlink.
Qed.

Lemma shrinks_detach this g : shrinks g (snd (detach this g)).
Proof.
  unfold detach, disconnectParents, bind.
  destruct (isDisposed g this); cbn [snd ret]; [apply shrinks_refl|].
  apply shrinks_unlink.
Qed.

Lemma shrinks_dispose this g : shrinks g (snd (dispose this g)).
Proof.
  unfold dispose. destruct (isDisposed g this); cbn [snd]; [apply shrinks_refl|].
  eapply shrinks_trans; [apply (shrinks_unlink (λ l, getParent l = this))|].
  eapply shrinks_trans; [apply (shrinks_unlink (λ l, getChild l = this))|].
  by apply shrinks_alter.
Qed.

Lemma shrinks_owned g g' : shrinks g g' → owned g → owned g'.
Proof.
  intros (Hs & Hn & Hl) Hown h l Hin.
  assert (Hin0 : l ∈ extensionsOf g h) by (eapply sublist_elem_of; [apply Hs|done]).
  destruct (Hown h l Hin0) as (Hp & Hreg & Hc). split_and!; [done|by eapply Hl|].
  by apply Hn.
Qed.

Lemma shrinks_linksFor g g' h id :
  shrinks g g' → owned g → linksFor g' h id `sublist_of` linksFor g h id.
Proof.
  intros (Hs & Hn & _) Hown. apply linksFor_sublist; [apply Hs|].
  intros l Hl. apply Hn. by apply (Hown h l).
Qed.

Lemma shrinks_atMostOne g g' : shrinks g g' → owned g → atMostOne g → atMostOne g'.
Proof.
  intros Hsh Hown Hone h id. etrans; [|apply (Hone h id)].
  apply sublist_length. by apply shrinks_linksFor.
Qed.

(** ** The invariants along a sequence of calls *)

Lemma attached_linksFor_this this l g id :
  is_Some (nodes g !! this) →
  linksFor (attached this l g) this id
  = linksFor g this id
    ++ (if decide (extensionNameOf g (getChild l) = Some id) then [l] else []).
Proof.
  intros Hthis. pose proof (attached_frame this l g) as (Hname & _).
  unfold linksFor. rewrite attached_extensionsOf_this by done.
  rewrite filter_app, filter_cons, filter_nil, Hname. f_equal.
  apply list_filter_iff. intros x. by rewrite Hname.
Qed.

Lemma attached_linksFor_other this l g h id :
  h ≠ this → linksFor (attached this l g) h id = linksFor g h id.
Proof.
  intros Hne. pose proof (attached_frame this l g) as (Hname & _).
  apply linksFor_frame; [by apply attached_extensionsOf_other|].
  intros x _. apply Hname.
Qed.

Lemma owned_attached this ext g :
  owned g → isLive g this = true → isLive g ext = true →
  owned (attached this (newLink this ext g) g).
Proof.
  intros Hown Hthis Hext h l Hin.
  pose proof (attached_frame this (newLink this ext g) g) as (_ & _ & _ & _ & Hsome).
  assert (Hold : l ∈ extensionsOf g h →
     getParent l = h ∧ l ∈ links (attached this (newLink this ext g) g)
     ∧ is_Some (nodes (attached this (newLink this ext g) g) !! getChild l)).
  { intros Hl. destruct (Hown h l Hl) as (? & ? & ?). split_and!; [done| |].
    - cbn [attached links]. apply elem_of_app. by left.
    - by apply Hsome. }
  destruct (decide (h = this)) as [->|Hne].
  - rewrite attached_extensionsOf_this in Hin by by apply isLive_is_Some.
    apply elem_of_app in Hin as [Hin|Hin]; [by apply Hold|].
    apply list_elem_of_singleton in Hin as ->. split_and!; [done| |].
    + cbn [attached links]. apply elem_of_app. right. left.
    + apply Hsome. cbn. by apply isLive_is_Some.
  - rewrite attached_extensionsOf_other in Hin by done. by apply Hold.
Qed.

Lemma atMostOne_attached this l g id :
  atMostOne g → is_Some (nodes g !! this) →
  extensionNameOf g (getChild l) = Some id →
  linksFor g this id = [] →
  atMostOne (attached this l g).
Proof.
  intros Hone Hthis Hname Hnone h id'.
  destruct (decide (h = this)) as [->|Hne].
  - rewrite attached_linksFor_this by done.
    destruct (decide (extensionNameOf g (getChild l) = Some id')) as [Heq|Hneq].
    + assert (id' = id) as -> by congruence. by rewrite Hnone.
    + rewrite app_nil_r. apply Hone.
  - rewrite attached_linksFor_other by done. apply Hone.
Qed.

Lemma owned_setExtension this ctor ext g :
  owned g → owned (snd (setExtension this ctor ext g)).
Proof.
  intros Hown.
  assert (Hown1 : owned (afterRemoval this ctor g))
    by (eapply shrinks_owned; [apply shrinks_afterRemoval|done]).
  destruct ext as [ext|]; [|by rewrite setExtension_null].
  rewrite setExtension_some. cbv zeta.
  destruct (isLive g this && isLive g ext) eqn:Hlive; [|done].
  apply andb_prop in Hlive as [Hthis Hext].
  pose proof (afterRemoval_frame this ctor g) as (_ & _ & _ & Hl & _).
  cbn [snd]. apply owned_attached; [done|by rewrite Hl..].
Qed.

Lemma atMostOne_setExtension this ctor ext g :
  tokenMatches g (CallSetExtension this ctor ext) →
  owned g → atMostOne g → atMostOne (snd (setExtension this ctor ext g)).
Proof.
  intros Htok Hown Hone.
  assert (Hone1 : atMostOne (afterRemoval this ctor g))
    by (eapply shrinks_atMostOne; [apply shrinks_afterRemoval|done..]).
  destruct ext as [ext|]; [|by rewrite setExtension_null].
  rewrite setExtension_some. cbv zeta.
  destruct (isLive g this && isLive g ext) eqn:Hlive; [|done].
  apply andb_prop in Hlive as [Hthis Hext].
  pose proof (afterRemoval_frame this ctor g) as (Hn & _ & _ & _ & Hs & _).
  cbn [snd]. apply (atMostOne_attached _ _ _ (EXTENSION_NAME ctor)); [done| | |].
  - apply Hs. by apply isLive_is_Some.
  - cbn [newLink getChild]. by rewrite Hn.
  - apply afterRemoval_clears, Hone.
Qed.

Lemma shrinks_setField (f : Property → Property) this g :
  (∀ p, extensions (f p) = extensions p) →
  (∀ p, extensionName (f p) = extensionName p) →
  shrinks g (snd (bind (modify (λ g, with_nodes (alter f this (nodes g)) g))
                       (λ _, ret this) g)).
Proof. intros. unfold bind, modify, ret. cbn [snd]. by apply shrinks_alter. Qed.

(** Every call but [setExtension] only drops links. *)
Lemma run_shrinks c g :
  (∀ this ctor ext, c ≠ CallSetExtension this ctor ext) → shrinks g (run c g).
Proof.
  intros Hc. destruct c; cbn [run].
  - apply shrinks_construct.
  - by apply shrinks_setField.
  - by apply shrinks_setField.
  - by destruct (Hc this ctor extensionProperty).
  - apply shrinks_detach.
  - apply shrinks_dispose.
  - apply shrinks_link.
Qed.

Lemma run_owned c g : owned g → owned (run c g).
Proof.
  intros Hown.
  destruct c; try (eapply shrinks_owned; [apply run_shrinks; discriminate|done]).
  by apply owned_setExtension.
Qed.

Lemma run_atMostOne c g :
  tokenMatches g c → owned g → atMostOne g → atMostOne (run c g).
Proof.
  intros Htok Hown Hone.
  destruct c; try (eapply shrinks_atMostOne; [apply run_shrinks; discriminate|done..]).
  by apply atMostOne_setExtension.
Qed.

Lemma owned_emptyGraph : owned emptyGraph.
Proof. intros h l Hl. by apply not_elem_of_nil in Hl. Qed.

Lemma atMostOne_emptyGraph : atMostOne emptyGraph.
Proof. intros h id. cbn. apply Nat.le_0_l. Qed.

Lemma runAll_owned cs g : owned g → owned (runAll cs g).
Proof.
  revert g. induction cs as [|c cs IH]; intros g Hown; [done|].
  cbn [runAll]. by apply IH, run_owned.
Qed.

Lemma runAll_atMostOne cs g :
  tokensMatch cs g → owned g → atMostOne g → atMostOne (runAll cs g).
Proof.
  revert g. induction cs as [|c cs IH]; intros g Htok Hown Hone; [done|].
  destruct Htok as [Hc Hcs]. cbn [runAll].
  apply IH; [done|by apply run_owned|by apply run_atMostOne].
Qed.

(** ** What a successful [setExtension] leaves *)

Lemma setExtension_attaches this ctor ext g :
  isLive g this = true → isLive g ext = true →
  setExtension this ctor (Some ext) g
  = (inr this, attached this (newLink this ext (afterRemoval this ctor g))
                             (afterRemoval this ctor g)).
Proof. intros Hthis Hext. by rewrite setExtension_some, Hthis, Hext. Qed.

Lemma setExtension_rejected this ctor ext g :
  isLive g this && isLive g ext = false →
  setExtension this ctor (Some ext) g = (inl InvalidOperation, afterRemoval this ctor g).
Proof. intros Hdead. by rewrite setExtension_some, Hdead. Qed.

Lemma afterRemoval_is_Some this ctor g n :
  isLive g n = true → is_Some (nodes (afterRemoval this ctor g) !! n).
Proof.
  intros Hn. pose proof (afterRemoval_frame this ctor g) as (_ & _ & _ & _ & Hs & _).
  by apply Hs, isLive_is_Some.
Qed.

Lemma attached_after_extensionsOf this ctor ext g :
  isLive g this = true →
  extensionsOf (attached this (newLink this ext (afterRemoval this ctor g))
                         (afterRemoval this ctor g)) this
  = match getExtension this ctor g with
    | Some prev => filter (λ l, getChild l ≠ prev) (extensionsOf g this)
    | None => extensionsOf g this
    end ++ [newLink this ext (afterRemoval this ctor g)].
Proof.
  intros Hthis. rewrite attached_extensionsOf_this by by apply afterRemoval_is_Some.
  by rewrite afterRemoval_extensionsOf.
Qed.

(** The frame of a whole call: identifiers, kinds and disposal flags. *)
Lemma setExtension_frame this ctor ext g :
  let g' := snd (setExtension this ctor ext g) in
  (∀ n, extensionNameOf g' n = extensionNameOf g n)
  ∧ (∀ n, propertyTypeOf g' n = propertyTypeOf g n)
  ∧ (∀ n, isDisposed g' n = isDisposed g n)
  ∧ (∀ n, isLive g' n = isLive g n).
Proof.
  pose proof (afterRemoval_frame this ctor g) as (Hn & Ht & Hd & Hl & _).
  destruct ext as [ext|]; cbv zeta; [|by rewrite setExtension_null].
  rewrite setExtension_some. cbv zeta.
  destruct (isLive g this && isLive g ext); cbn [snd]; [|done].
  pose proof (attached_frame this (newLink this ext (afterRemoval this ctor g))
                (afterRemoval this ctor g)) as (Hn' & Ht' & Hd' & Hl' & _).
  split_and!; intros n; congruence.
Qed.

Lemma linksFor_singleton_getExtension h t g l :
  linksFor g h (EXTENSION_NAME t) = [l] → getExtension h t g = Some (getChild l).
Proof.
  intros Hone. destruct (getExtension h t g) as [c|] eqn:Hget.
  - apply getExtension_Some_linksFor in Hget as (_ & l' & Hl' & Hc).
    rewrite Hone in Hl'. apply list_elem_of_singleton in Hl'. by subst.
  - apply getExtension_None in Hget. congruence.
Qed.

(** With a matching token and at most one link for it before, the call
    leaves exactly the new link for the identifier. *)
Lemma setExtension_linksFor_token this ctor ext g :
  isLive g this = true →
  extensionNameOf g ext = Some (EXTENSION_NAME ctor) →
  length (linksFor g this (EXTENSION_NAME ctor)) ≤ 1 →
  linksFor (attached this (newLink this ext (afterRemoval this ctor g))
                     (afterRemoval this ctor g)) this (EXTENSION_NAME ctor)
  = [newLink this ext (afterRemoval this ctor g)].
Proof.
  intros Hthis Hname Hone.
  pose proof (afterRemoval_frame this ctor g) as (Hn & _).
  rewrite attached_linksFor_this by by apply afterRemoval_is_Some.
  rewrite afterRemoval_clears by done. cbn [newLink getChild].
  by rewrite decide_True by by rewrite Hn.
Qed.

(** A link for another identifier than the token's is added to those
    already there. *)
Lemma setExtension_linksFor_mismatch this ctor ext g id :
  isLive g this = true →
  extensionNameOf g ext = Some id → id ≠ EXTENSION_NAME ctor →
  linksFor (attached this (newLink this ext (afterRemoval this ctor g))
                     (afterRemoval this ctor g)) this id
  = linksFor g this id ++ [newLink this ext (afterRemoval this ctor g)].
Proof.
  intros Hthis Hname Hid.
  pose proof (afterRemoval_frame this ctor g) as (Hn & _).
  rewrite attached_linksFor_this by by apply afterRemoval_is_Some.
  rewrite afterRemoval_others by done. cbn [newLink getChild].
  by rewrite decide_True by by rewrite Hn.
Qed.

(** The extension found is attached before the removal step and is not
    after it. *)
Lemma afterRemoval_unlinks this ctor g prev :
  getExtension this ctor g = Some prev →
  extensionsOf (afterRemoval this ctor g) this
  = filter (λ l, getChild l ≠ prev) (extensionsOf g this)
  ∧ prev ∈ listExtensions this g
  ∧ prev ∉ listExtensions this (afterRemoval this ctor g).
Proof.
  intros Hget.
  assert (Hext : extensionsOf (afterRemoval this ctor g) this
                 = filter (λ l, getChild l ≠ prev) (extensionsOf g this))
    by by rewrite afterRemoval_extensionsOf, Hget.
  split_and!; [done| |].
  - apply getExtension_Some_linksFor in Hget as (_ & l & Hl & <-).
    apply list_elem_of_filter in Hl as [_ Hl].
    unfold listExtensions. apply list_elem_of_fmap. by exists l.
  - unfold listExtensions. rewrite Hext. intros Hin.
    apply list_elem_of_fmap in Hin as (l & Hc & Hin).
    apply list_elem_of_filter in Hin as [Hne _]. by apply Hne.
Qed.

(** ** The scenarios of the documentation, run on the model *)

(** Attach an extension, look it up, remove it with null: the host has no
    extension left and the extension node is still valid. *)
Example attach_lookup_remove :
  let g1 := snd (setExtension 0 (mkCtor "VENDOR_x") (Some 1) (twoValues "VENDOR_x")) in
  let g2 := snd (setExtension 0 (mkCtor "VENDOR_x") None g1) in
  getExtension 0 (mkCtor "VENDOR_x") g1 = Some 1
  ∧ listExtensions 0 g1 = [1]
  ∧ listExtensions 0 g2 = []
  ∧ isLive g2 1 = true.
Proof. cbv zeta. split_and!; vm_compute; reflexivity. Qed.

(** "Detaching a texture removes any references to it, except from the
    doc.  Disposing a texture removes all references to it, and its own
    references." *)
Example detach_then_dispose :
  let g1 := snd (detach 3 sharedTexture) in
  let g2 := snd (dispose 3 g1) in
  listParents 3 sharedTexture = [0; 1; 2]
  ∧ listParents 3 g1 = [0]
  ∧ outgoing g1 1 = []
  ∧ listParents 3 g2 = []
  ∧ outgoing g2 0 = []
  ∧ listExtensions 3 g2 = []
  ∧ isLive g2 4 = true.
Proof. cbv zeta. split_and!; vm_compute; reflexivity. Qed.

(** * The claims *)

(** C6. [getExtension(t)] is a linear scan of the host's extension links:
    it returns the child of the first link whose child's [extensionName]
    is the token's [EXTENSION_NAME], and null when there is no such
    link. *)
Theorem getExtension_linear_scan (h : nat) (t : ExtensionPropertyConstructor)
    (g : PropertyGraph) :
  getExtension h t g = getExtension_scan g (EXTENSION_NAME t) (extensionsOf g h)
  ∧ (∀ c, getExtension h t g = Some c ↔
       ∃ l1 l l2, extensionsOf g h = l1 ++ l :: l2 ∧ getChild l = c
         ∧ extensionNameOf g c = Some (EXTENSION_NAME t)
         ∧ Forall (λ l', extensionNameOf g (getChild l') ≠ Some (EXTENSION_NAME t)) l1)
  ∧ (getExtension h t g = None ↔
       ∀ l, l ∈ extensionsOf g h →
         extensionNameOf g (getChild l) ≠ Some (EXTENSION_NAME t)).
Proof.
  split_and!.
  - apply getExtension_is_scan.
  - intros c. rewrite getExtension_is_scan. apply scan_Some.
  - rewrite getExtension_is_scan, scan_None. apply Forall_forall.
Qed.

(** C7. The base [clone()] always fails with NotImplemented, on every
    receiver and heap, and never returns a node; it changes nothing. *)
Theorem clone_not_implemented (this : nat) (g : PropertyGraph) :
  clone this g = (inl NotImplemented, g)
  ∧ ∀ n g', clone this g ≠ (inr n, g').
Proof. split; [reflexivity|]. intros n g'. unfold clone, throw. congruence. Qed.

(** The extension links that the removal step prunes are those of the
    receiver that point at the extension found. *)
Lemma afterRemoval_links this ctor g prev :
  getExtension this ctor g = Some prev →
  links (afterRemoval this ctor g)
  = filter (λ l, ¬ l ∈ filter (λ l', getChild l' = prev) (extensionsOf g this)) (links g).
Proof. intros Hget. unfold afterRemoval. by rewrite Hget. Qed.

Lemma linksFor_one_elem g h id l :
  length (linksFor g h id) ≤ 1 → l ∈ extensionsOf g h →
  extensionNameOf g (getChild l) = Some id → linksFor g h id = [l].
Proof.
  intros Hone Hl Hname.
  assert (Hin : l ∈ linksFor g h id) by (apply list_elem_of_filter; done).
  destruct (linksFor g h id) as [|l0 [|l1 ls]];
    [by apply not_elem_of_nil in Hin| |simpl in Hone; lia].
  by apply list_elem_of_singleton in Hin as ->.
Qed.

(** C1, as the code has it.  In every heap reached by calls whose
    [setExtension] tokens name the extension they attach, every host has at
    most one extension link per identifier; and on a host that is a live
    node of such a heap, attaching the live nodes [e1] then [e2], both of
    the token's identifier, returns the host twice and leaves exactly one
    extension link for the identifier, which points at [e2]: [e1] is no
    longer among the host's extensions, no extension link from the host to
    [e1] stays registered, and [e1] is not disposed. *)
Theorem setExtension_one_per_identifier (cs : list Call) (h e1 e2 : nat)
    (t : ExtensionPropertyConstructor) :
  tokensMatch cs emptyGraph →
  isLive (runAll cs emptyGraph) h = true →
  isLive (runAll cs emptyGraph) e1 = true →
  isLive (runAll cs emptyGraph) e2 = true →
  extensionNameOf (runAll cs emptyGraph) e1 = Some (EXTENSION_NAME t) →
  extensionNameOf (runAll cs emptyGraph) e2 = Some (EXTENSION_NAME t) →
  atMostOne (runAll cs emptyGraph)
  ∧ ∃ g1 g2 l,
      setExtension h t (Some e1) (runAll cs emptyGraph) = (inr h, g1)
      ∧ setExtension h t (Some e2) g1 = (inr h, g2)
      ∧ atMostOne g2
      ∧ linksFor g2 h (EXTENSION_NAME t) = [l] ∧ getChild l = e2
      ∧ getExtension h t g2 = Some e2
      ∧ (e1 ≠ e2 → e1 ∉ listExtensions h g2)
      ∧ (e1 ≠ e2 → ∀ l', l' ∈ links g2 → getParent l' = h → getChild l' = e1 →
           l' ∈ links (runAll cs emptyGraph)
           ∧ l' ∉ extensionsOf (runAll cs emptyGraph) h)
      ∧ isLive g2 e1 = true.
Proof.
  set (g := runAll cs emptyGraph). intros Htok Hh He1 He2 Hn1 Hn2.
  assert (Hown : owned g) by apply runAll_owned, owned_emptyGraph.
  assert (Hone : atMostOne g)
    by (apply runAll_atMostOne; [done|apply owned_emptyGraph|apply atMostOne_emptyGraph]).
  split; [done|].
  set (a0 := afterRemoval h t g). set (l1 := newLink h e1 a0).
  set (g1 := attached h l1 a0).
  set (a1 := afterRemoval h t g1). set (l2 := newLink h e2 a1).
  set (g2 := attached h l2 a1).
  assert (Hs1 : setExtension h t (Some e1) g = (inr h, g1))
    by by apply setExtension_attaches.
  pose proof (setExtension_frame h t (Some e1) g) as (Hname1 & _ & _ & Hlive1).
  rewrite Hs1 in Hname1, Hlive1. cbn [snd] in Hname1, Hlive1.
  assert (Hs2 : setExtension h t (Some e2) g1 = (inr h, g2))
    by (apply setExtension_attaches; by rewrite Hlive1).
  pose proof (setExtension_frame h t (Some e2) g1) as (Hname2 & _ & _ & Hlive2).
  rewrite Hs2 in Hname2, Hlive2. cbn [snd] in Hname2, Hlive2.
  assert (Hown1 : owned g1).
  { pose proof (owned_setExtension h t (Some e1) g Hown) as H1. by rewrite Hs1 in H1. }
  assert (Hone1 : atMostOne g1).
  { pose proof (atMostOne_setExtension h t (Some e1) g Hn1 Hown Hone) as H1.
    by rewrite Hs1 in H1. }
  assert (Hone2 : atMostOne g2).
  { assert (Htok2 : tokenMatches g1 (CallSetExtension h t (Some e2)))
      by (cbn; by rewrite Hname1).
    pose proof (atMostOne_setExtension h t (Some e2) g1 Htok2 Hown1 Hone1) as H2.
    by rewrite Hs2 in H2. }
  assert (Hl1 : linksFor g1 h (EXTENSION_NAME t) = [l1])
    by (apply setExtension_linksFor_token; [done..|apply Hone]).
  assert (Hl2 : linksFor g2 h (EXTENSION_NAME t) = [l2]).
  { apply setExtension_linksFor_token; [by rewrite Hlive1|by rewrite Hname1|apply Hone1]. }
  assert (Hget1 : getExtension h t g1 = Some e1)
    by apply (linksFor_singleton_getExtension _ _ _ _ Hl1).
  assert (Hext2 : extensionsOf g2 h
                  = filter (λ l, getChild l ≠ e1) (extensionsOf g1 h) ++ [l2]).
  { unfold g2, l2, a1. rewrite attached_after_extensionsOf by by rewrite Hlive1.
    by rewrite Hget1. }
  exists g1, g2, l2. split_and!; try done.
  - apply (linksFor_singleton_getExtension _ _ _ _ Hl2).
  - intros Hne Hin. unfold listExtensions in Hin. rewrite Hext2 in Hin.
    apply list_elem_of_fmap in Hin as (l & Hc & Hl).
    apply elem_of_app in Hl as [Hl|Hl].
    + apply list_elem_of_filter in Hl as [Hl _]. by apply Hl.
    + apply list_elem_of_singleton in Hl as ->. by apply Hne.
  - intros Hne l' Hl' Hp Hc.
    assert (Hin1 : l1 ∈ extensionsOf g1 h).
    { unfold g1. rewrite attached_extensionsOf_this by by apply afterRemoval_is_Some.
      apply elem_of_app. right. left. }
    cbn [g2 attached links] in Hl'. apply elem_of_app in Hl' as [Hl'|Hl'];
      [|apply list_elem_of_singleton in Hl' as ->; by destruct Hne].
    unfold a1 in Hl'. rewrite (afterRemoval_links _ _ _ _ Hget1) in Hl'.
    apply list_elem_of_filter in Hl' as [Hnp Hl'].
    cbn [g1 attached links] in Hl'. apply elem_of_app in Hl' as [Hl'|Hl'].
    2:{ apply list_elem_of_singleton in Hl' as ->. destruct Hnp.
        apply list_elem_of_filter. by split. }
    pose proof (afterRemoval_frame h t g) as (_ & _ & _ & _ & _ & _ & Hsub & _).
    split; [by eapply sublist_elem_of|].
    intros Hin0.
    assert (Hl0 : linksFor g h (EXTENSION_NAME t) = [l']).
    { apply linksFor_one_elem; [apply Hone|done|by rewrite Hc]. }
    pose proof (linksFor_singleton_getExtension _ _ _ _ Hl0) as Hget0. rewrite Hc in Hget0.
    unfold a0 in Hl'. rewrite (afterRemoval_links _ _ _ _ Hget0) in Hl'.
    apply list_elem_of_filter in Hl' as [Hnp0 _]. destruct Hnp0.
    apply list_elem_of_filter. by split.
  - by rewrite Hlive2, Hlive1.
Qed.

Lemma setExtension_one_per_identifier_witness :
  atMostOne (twoValues "VENDOR_x")
  ∧ ∃ g1 g2 l,
      setExtension 0 (mkCtor "VENDOR_x") (Some 1) (twoValues "VENDOR_x") = (inr 0, g1)
      ∧ setExtension 0 (mkCtor "VENDOR_x") (Some 2) g1 = (inr 0, g2)
      ∧ atMostOne g2
      ∧ linksFor g2 0 "VENDOR_x" = [l] ∧ getChild l = 2
      ∧ getExtension 0 (mkCtor "VENDOR_x") g2 = Some 2
      ∧ (1 ≠ 2 → 1 ∉ listExtensions 0 g2)
      ∧ (1 ≠ 2 → ∀ l', l' ∈ links g2 → getParent l' = 0 → getChild l' = 1 →
           l' ∈ links (twoValues "VENDOR_x")
           ∧ l' ∉ extensionsOf (twoValues "VENDOR_x") 0)
      ∧ isLive g2 1 = true.
Proof.
  apply (setExtension_one_per_identifier
           [CallConstruct "Mesh" None "host";
            CallConstruct "Ext" (Some "VENDOR_x"%string) "first";
            CallConstruct "Ext" (Some "VENDOR_x"%string) "second"]
           0 1 2 (mkCtor "VENDOR_x")).
  - vm_compute. tauto.
  - vm_compute. reflexivity.
  - vm_compute. reflexivity.
  - vm_compute. reflexivity.
  - vm_compute. reflexivity.
  - vm_compute. reflexivity.
Defined.

(** C1, as stated, fails where the token names another extension than the
    values attached: host 0 ends with two extension links for "B", and the
    first value is still attached. *)
Lemma setExtension_twice_other_token :
  let g := twoValues "B" in
  let g1 := snd (setExtension 0 (mkCtor "A") (Some 1) g) in
  let g2 := snd (setExtension 0 (mkCtor "A") (Some 2) g1) in
  extensionNameOf g 1 = Some "B"%string
  ∧ extensionNameOf g 2 = Some "B"%string
  ∧ fst (setExtension 0 (mkCtor "A") (Some 1) g) = inr 0
  ∧ fst (setExtension 0 (mkCtor "A") (Some 2) g1) = inr 0
  ∧ length (linksFor g2 0 "B") = 2
  ∧ listExtensions 0 g2 = [1; 2]
  ∧ ¬ atMostOne g2.
Proof.
  cbv zeta. split_and!; try (vm_compute; reflexivity).
  intros Hone. specialize (Hone 0 "B"%string). vm_compute in Hone. lia.
Qed.

(** C5. [setExtension(t, null)] with no extension of the token's identifier
    attached returns the host and leaves the whole heap as it was; with one
    attached, it returns the host, drops the links to that extension from
    the host's list, and leaves the extension node as alive as before:
    where the host had at most one link for the identifier, none is left. *)
Theorem setExtension_null_removes (h : nat) (t : ExtensionPropertyConstructor)
    (g : PropertyGraph) :
  (linksFor g h (EXTENSION_NAME t) = [] →
     setExtension h t None g = (inr h, g)
     ∧ listExtensions h (snd (setExtension h t None g)) = listExtensions h g)
  ∧ (∀ e, getExtension h t g = Some e →
       ∃ g', setExtension h t None g = (inr h, g')
         ∧ extensionsOf g' h = filter (λ l, getChild l ≠ e) (extensionsOf g h)
         ∧ e ∈ listExtensions h g
         ∧ (e ∉ listExtensions h g')
         ∧ isDisposed g' e = isDisposed g e
         ∧ isLive g' e = isLive g e
         ∧ (length (linksFor g h (EXTENSION_NAME t)) ≤ 1 →
              linksFor g' h (EXTENSION_NAME t) = []
              ∧ getExtension h t g' = None)).
Proof.
  split.
  - intros Hnone. apply getExtension_None in Hnone.
    rewrite setExtension_null. unfold afterRemoval. by rewrite Hnone.
  - intros e Hget. exists (afterRemoval h t g).
    pose proof (afterRemoval_frame h t g) as (_ & _ & Hd & Hl & _).
    destruct (afterRemoval_unlinks h t g e Hget) as (Hext & Hin & Hout).
    split_and!; [apply setExtension_null|done|done|done|apply Hd|apply Hl|].
    intros Hone. assert (Hnil := afterRemoval_clears h t g Hone).
    split; [done|]. by apply getExtension_None.
Qed.

Lemma setExtension_null_removes_witness :
  setExtension 0 (mkCtor "C") None twoExtensions = (inr 0, twoExtensions)
  ∧ ∃ g', setExtension 0 (mkCtor "A") None twoExtensions = (inr 0, g')
      ∧ listExtensions 0 twoExtensions = [1; 2]
      ∧ listExtensions 0 g' = [2]
      ∧ isLive g' 1 = true
      ∧ getExtension 0 (mkCtor "A") g' = None.
Proof.
  destruct (setExtension_null_removes 0 (mkCtor "C") twoExtensions) as [Hnoop _].
  destruct (setExtension_null_removes 0 (mkCtor "A") twoExtensions) as [_ Hrem].
  destruct (Hrem 1) as (g' & Hset & Hext & _ & _ & _ & Hlive & Hnone).
  { vm_compute. reflexivity. }
  split.
  - apply Hnoop. vm_compute. reflexivity.
  - exists g'. split_and!.
    + exact Hset.
    + vm_compute. reflexivity.
    + unfold listExtensions. rewrite Hext. vm_compute. reflexivity.
    + rewrite Hlive. vm_compute. reflexivity.
    + apply Hnone. vm_compute. lia.
Defined.

(** C8. [setExtension(ctor, ext)] with a live host and a live [ext]
    removes the links to the extension found under [ctor.EXTENSION_NAME]
    and pushes a link named by [ext.extensionName].  When the two names
    are equal, at most one link per identifier is preserved; when they
    differ, the links for [ext]'s identifier are all kept and one is
    added, so a host that had one has two. *)
Theorem setExtension_removes_by_token_adds_by_value (h e : nat)
    (ctor : ExtensionPropertyConstructor) (id : string) (g : PropertyGraph) :
  isLive g h = true → isLive g e = true → extensionNameOf g e = Some id →
  ∃ g' l,
    setExtension h ctor (Some e) g = (inr h, g')
    ∧ extensionsOf g' h
      = match getExtension h ctor g with
        | Some prev => filter (λ l', getChild l' ≠ prev) (extensionsOf g h)
        | None => extensionsOf g h
        end ++ [l]
    ∧ (∀ prev, getExtension h ctor g = Some prev →
         extensionNameOf g prev = Some (EXTENSION_NAME ctor))
    ∧ linkName l = id ∧ getParent l = h ∧ getChild l = e
    ∧ (id = EXTENSION_NAME ctor → length (linksFor g h id) ≤ 1 →
         linksFor g' h id = [l])
    ∧ (id = EXTENSION_NAME ctor → owned g → atMostOne g → atMostOne g')
    ∧ (id ≠ EXTENSION_NAME ctor → linksFor g' h id = linksFor g h id ++ [l])
    ∧ (id ≠ EXTENSION_NAME ctor → linksFor g h id ≠ [] → ¬ atMostOne g').
Proof.
  intros Hh He Hname.
  pose proof (afterRemoval_frame h ctor g) as (Hn & _).
  exists (attached h (newLink h e (afterRemoval h ctor g)) (afterRemoval h ctor g)),
         (newLink h e (afterRemoval h ctor g)).
  assert (Hset := setExtension_attaches h ctor e g Hh He).
  split_and!; try done.
  - by apply attached_after_extensionsOf.
  - intros prev Hget. by apply getExtension_Some_linksFor in Hget as [? _].
  - cbn [newLink linkName]. by rewrite Hn, Hname.
  - intros -> Hone. by apply setExtension_linksFor_token.
  - intros -> Hown Hone.
    pose proof (atMostOne_setExtension h ctor (Some e) g Hname Hown Hone) as H.
    by rewrite Hset in H.
  - intros Hid. by apply setExtension_linksFor_mismatch.
  - intros Hid Hsome Hone. specialize (Hone h id).
    rewrite setExtension_linksFor_mismatch in Hone by done.
    rewrite length_app in Hone. destruct (linksFor g h id); [done|].
    simpl in Hone. lia.
Qed.

Lemma setExtension_removes_by_token_adds_by_value_witness :
  ∃ g' l,
    setExtension 0 (mkCtor "A") (Some 2)
      (runAll [CallConstruct "Mesh" None "host";
               CallConstruct "Ext" (Some "B"%string) "first";
               CallConstruct "Ext" (Some "B"%string) "second";
               CallSetExtension 0 (mkCtor "B") (Some 1)] emptyGraph)
    = (inr 0, g')
    ∧ linkName l = "B"%string
    ∧ listExtensions 0 g' = [1; 2]
    ∧ ¬ atMostOne g'.
Proof.
  destruct (setExtension_removes_by_token_adds_by_value 0 2 (mkCtor "A") "B"
    (runAll [CallConstruct "Mesh" None "host";
             CallConstruct "Ext" (Some "B"%string) "first";
             CallConstruct "Ext" (Some "B"%string) "second";
             CallSetExtension 0 (mkCtor "B") (Some 1)] emptyGraph))
    as (g' & l & Hset & Hext & _ & Hnm & _ & Hc & _ & _ & _ & Hbad).
  - vm_compute. reflexivity.
  - vm_compute. reflexivity.
  - vm_compute. reflexivity.
  - exists g', l. split_and!; [exact Hset|exact Hnm| |].
    + unfold listExtensions. rewrite Hext, fmap_app. cbn [fmap list_fmap].
      rewrite Hc. vm_compute. reflexivity.
    + apply Hbad; vm_compute; discriminate.
Defined.



(** C10, as the code has it.  [setName] and [setExtras] return the
    receiver on every input.  [setExtension] and [detach] never return
    another node than the receiver: [setExtension] returns it for null
    always, and for a value exactly when the host and the value are live
    nodes of the graph, failing with InvalidOperation otherwise; [detach]
    returns it exactly when the receiver is not disposed, failing with
    InvalidState otherwise. *)
Theorem mutators_return_receiver (this : nat) (g : PropertyGraph) :
  (∀ name, fst (setName this name g) = inr this)
  ∧ (∀ extras, fst (setExtras this extras g) = inr this)
  ∧ (∀ ctor ext r g', setExtension this ctor ext g = (inr r, g') → r = this)
  ∧ (∀ ctor, fst (setExtension this ctor None g) = inr this)
  ∧ (∀ ctor ext, isLive g this = true → isLive g ext = true →
       fst (setExtension this ctor (Some ext) g) = inr this)
  ∧ (∀ r g', detach this g = (inr r, g') → r = this)
  ∧ (isDisposed g this = false → fst (detach this g) = inr this)
  ∧ (∀ ctor ext, isLive g this && isLive g ext = false →
       fst (setExtension this ctor (Some ext) g) = inl InvalidOperation)
  ∧ (isDisposed g this = true → detach this g = (inl InvalidState, g)).
Proof.
  split_and!.
  - reflexivity.
  - reflexivity.
  - intros ctor [ext|] r g'.
    + rewrite setExtension_some. cbv zeta.
      destruct (isLive g this && isLive g ext); congruence.
    + rewrite setExtension_null. congruence.
  - intros ctor. by rewrite setExtension_null.
  - intros ctor ext Hthis Hext. by rewrite setExtension_attaches.
  - intros r g'. unfold detach, disconnectParents, bind, ret.
    destruct (isDisposed g this); congruence.
  - intros Hd. unfold detach, disconnectParents, bind, ret. by rewrite Hd.
  - intros ctor ext Hdead. by rewrite setExtension_rejected.
  - intros Hd. unfold detach, disconnectParents, bind, ret. by rewrite Hd.
Qed.

Lemma mutators_return_receiver_witness :
  fst (setName 0 "renamed" twoExtensions) = inr 0
  ∧ fst (setExtras 0 [("k", "v")] twoExtensions) = inr 0
  ∧ fst (setExtension 0 (mkCtor "A") None twoExtensions) = inr 0
  ∧ fst (setExtension 0 (mkCtor "A") (Some 3) twoExtensions) = inr 0
  ∧ fst (detach 1 twoExtensions) = inr 1.
Proof.
  destruct (mutators_return_receiver 0 twoExtensions)
    as (Hname & Hextras & _ & Hnull & Hset & _ & _).
  destruct (mutators_return_receiver 1 twoExtensions)
    as (_ & _ & _ & _ & _ & _ & Hdet & _).
  split_and!.
  - apply Hname.
  - apply Hextras.
  - apply Hnull.
  - apply Hset; vm_compute; reflexivity.
  - apply Hdet. vm_compute. reflexivity.
Defined.

(** C10, as stated, fails where the graph rejects the call: on host 0,
    [setExtension] with the disposed node 2 raises InvalidOperation, and
    [detach] on the disposed node 2 raises InvalidState; neither returns
    its receiver. *)
Lemma mutators_can_throw :
  isLive disposedValue 0 = true
  ∧ isDisposed disposedValue 2 = true
  ∧ fst (setExtension 0 (mkCtor "X") (Some 2) disposedValue) = inl InvalidOperation
  ∧ fst (setExtension 0 (mkCtor "X") (Some 2) disposedValue) ≠ inr 0
  ∧ fst (detach 2 disposedValue) = inl InvalidState
  ∧ fst (detach 2 disposedValue) ≠ inr 2.
Proof.
  split_and!; try (vm_compute; reflexivity); vm_compute; discriminate.
Qed.

(** ** Parents *)

Lemma elem_of_distinct l x : x ∈ distinct l ↔ x ∈ l.
Proof.
  induction l as [|y l IH]; [done|]. cbn [distinct].
  rewrite !elem_of_cons, list_elem_of_filter, IH.
  destruct (decide (x = y)); tauto.
Qed.

Lemma distinct_filter (P : nat → Prop) `{!∀ x, Decision (P x)} l :
  filter P (distinct l) = distinct (filter P l).
Proof.
  induction l as [|y l IH]; [done|]. cbn [distinct].
  assert (Hcomm : filter P (filter (λ z, z ≠ y) (distinct l))
                  = filter (λ z, z ≠ y) (distinct (filter P l))).
  { rewrite <- IH, !list_filter_filter. apply list_filter_iff. tauto. }
  rewrite !filter_cons. destruct (decide (P y)) as [Hy|Hy].
  - cbn [distinct]. by rewrite Hcomm.
  - rewrite Hcomm. apply filter_all, Forall_forall. intros z Hz ->.
    apply elem_of_distinct, list_elem_of_filter in Hz. tauto.
Qed.

Lemma filter_fmap_comm {A B} (f : A → B) (Q : B → Prop) `{!∀ y, Decision (Q y)}
    (l : list A) :
  filter Q (f <$> l) = f <$> filter (λ x, Q (f x)) l.
Proof.
  induction l as [|x l IH]; [done|]. cbn [fmap list_fmap].
  rewrite !filter_cons. destruct (decide (Q (f x))); cbn [fmap list_fmap];
    by rewrite <- IH.
Qed.

Lemma listGraphParents_elem n p g :
  p ∈ listGraphParents n g ↔ ∃ l, l ∈ links g ∧ getParent l = p ∧ getChild l = n.
Proof.
  unfold listGraphParents. rewrite elem_of_distinct, list_elem_of_fmap. split.
  - intros (l & -> & Hl). apply list_elem_of_filter in Hl as [Hc Hl]. eauto.
  - intros (l & Hl & <- & Hc). exists l. split; [done|].
    by apply list_elem_of_filter.
Qed.

(** The parents that survive the removal of the links leading to [n] from
    the parents [dead] selects. *)
Lemma unlink_parents (keep : nat → Prop) `{!∀ p, Decision (keep p)}
    (dead : Link → Prop) `{!∀ l, Decision (dead l)} n g :
  (∀ l, getChild l = n → (¬ dead l ↔ keep (getParent l))) →
  listGraphParents n (unlink dead g) = filter keep (listGraphParents n g).
Proof.
  intros Hdead. unfold listGraphParents. rewrite unlink_links.
  rewrite distinct_filter, filter_fmap_comm. do 2 f_equal.
  rewrite !list_filter_filter. apply list_filter_iff. intros l.
  specialize (Hdead l). tauto.
Qed.

(** Removing links that do not lead to [c] keeps the parents of [c]. *)
Lemma unlink_parents_other (dead : Link → Prop) `{!∀ l, Decision (dead l)} c g :
  (∀ l, dead l → getChild l ≠ c) →
  listGraphParents c (unlink dead g) = listGraphParents c g.
Proof.
  intros Hdead. unfold listGraphParents. rewrite unlink_links. do 2 f_equal.
  rewrite list_filter_filter. apply list_filter_iff. intros l.
  specialize (Hdead l). tauto.
Qed.

(** C2, as the code has it.  [detach()] on a node that is not disposed
    returns the node and keeps, of its parents, exactly those of type Root:
    with parents [p1], [p2] and [root], [listParents()] is [root] alone.
    The node is as alive as before and every other node keeps its parents.
    Of the links that leave the node, those it holds to itself are
    incoming links too and go unless the node is of type Root; all the
    others stay, so the outgoing links and the extension list of a node
    that is not its own parent are unchanged. *)
Theorem detach_keeps_root_links (n : nat) (g : PropertyGraph) :
  isDisposed g n = false →
  ∃ g', detach n g = (inr n, g')
    ∧ listParents n g'
      = filter (λ p, propertyTypeOf g p = Some "Root"%string) (listParents n g)
    ∧ (∀ p1 p2 root, listParents n g ≡ₚ [p1; p2; root] →
         propertyTypeOf g p1 ≠ Some "Root"%string →
         propertyTypeOf g p2 ≠ Some "Root"%string →
         propertyTypeOf g root = Some "Root"%string →
         listParents n g' = [root])
    ∧ isLive g' n = isLive g n
    ∧ isDisposed g' n = false
    ∧ (n ∉ listParents n g → outgoing g' n = outgoing g n)
    ∧ (n ∉ listParents n g → owned g → extensionsOf g' n = extensionsOf g n)
    ∧ (∀ c, c ≠ n → listParents c g' = listParents c g)
    ∧ outgoing g' n
      = filter (λ l, getChild l ≠ n ∨ propertyTypeOf g n = Some "Root"%string)
               (outgoing g n)
    ∧ (owned g →
         extensionsOf g' n
         = filter (λ l, getChild l ≠ n ∨ propertyTypeOf g n = Some "Root"%string)
                  (extensionsOf g n)).
Proof.
  intros Hd.
  set (dead := λ l, getChild l = n
     ∧ bool_decide (propertyTypeOf g (getParent l) ≠ Some "Root"%string) = true).
  exists (unlink dead g).
  assert (Hpar : listParents n (unlink dead g)
     = filter (λ p, propertyTypeOf g p = Some "Root"%string) (listParents n g)).
  { apply unlink_parents. intros l Hc. unfold dead.
    rewrite bool_decide_eq_true.
    destruct (decide (propertyTypeOf g (getParent l) = Some "Root"%string)); tauto. }
  assert (Hself : n ∉ listParents n g → ∀ l, getParent l = n → l ∈ links g → ¬ dead l).
  { intros Hn l Hp Hl [Hc _]. apply Hn. apply listGraphParents_elem. eauto. }
  split_and!.
  - unfold detach, disconnectParents, bind, ret. by rewrite Hd.
  - exact Hpar.
  - intros p1 p2 root Hperm H1 H2 Hr. rewrite Hpar.
    apply Permutation_singleton_r. rewrite Hperm.
    rewrite !filter_cons, filter_nil.
    rewrite decide_False, decide_False, decide_True by done. done.
  - apply unlink_isLive.
  - by rewrite unlink_isDisposed.
  - intros Hn. unfold outgoing. rewrite unlink_links, list_filter_filter.
    apply filter_ext_in. intros l Hl. split; [tauto|].
    intros Hp. split; [done|]. by apply Hself.
  - intros Hn Hown. rewrite unlink_extensionsOf. apply filter_all, Forall_forall.
    intros l Hl. destruct (Hown n l Hl) as (Hp & Hreg & _). by apply Hself.
  - intros c Hc. apply unlink_parents_other. intros l [Hl _]. congruence.
  - unfold outgoing. rewrite unlink_links, !list_filter_filter.
    apply list_filter_iff. intros l. unfold dead. rewrite bool_decide_eq_true.
    destruct (decide (getChild l = n)), (decide (getParent l = n)) as [->|];
      destruct (decide (propertyTypeOf g n = Some "Root"%string)); tauto.
  - intros Hown. rewrite unlink_extensionsOf. apply filter_ext_in.
    intros l Hl. destruct (Hown n l Hl) as (Hp & _).
    unfold dead. rewrite Hp, bool_decide_eq_true.
    destruct (decide (getChild l = n));
      destruct (decide (propertyTypeOf g n = Some "Root"%string)); tauto.
Qed.

Lemma detach_keeps_root_links_witness :
  ∃ g', detach 3 sharedTexture = (inr 3, g')
    ∧ listParents 3 sharedTexture = [0; 1; 2]
    ∧ listParents 3 g' = [0]
    ∧ isLive g' 3 = true
    ∧ outgoing g' 3 = outgoing sharedTexture 3
    ∧ listExtensions 3 g' = [4]
    ∧ listParents 4 g' = [3].
Proof.
  destruct (detach_keeps_root_links 3 sharedTexture)
    as (g' & Hdet & _ & Hroot & Hlive & _ & Hout & Hext & Hother & _).
  - vm_compute. reflexivity.
  - exists g'. split_and!.
    + exact Hdet.
    + vm_compute. reflexivity.
    + apply (Hroot 1 2 0).
      * vm_compute. apply Permutation_cons_append.
      * vm_compute. discriminate.
      * vm_compute. discriminate.
      * vm_compute. reflexivity.
    + rewrite Hlive. vm_compute. reflexivity.
    + apply Hout. apply (bool_decide_unpack _). vm_compute. exact I.
    + unfold listExtensions. rewrite Hext.
      * vm_compute. reflexivity.
      * apply (bool_decide_unpack _). vm_compute. exact I.
      * apply runAll_owned, owned_emptyGraph.
    + rewrite Hother by discriminate. vm_compute. reflexivity.
Defined.

(** C2, as stated, fails on a node that is its own parent: the extension
    node 2, not disposed, has the parents 0 (the root), 1 and itself;
    [detach()] leaves the root as its only parent and the node alive, but
    removes the link the node holds to itself, so its outgoing links and
    its extension list are not unchanged. *)
Lemma detach_removes_own_link :
  isDisposed selfExtension 2 = false
  ∧ listParents 2 selfExtension = [0; 1; 2]
  ∧ propertyTypeOf selfExtension 0 = Some "Root"%string
  ∧ propertyTypeOf selfExtension 1 ≠ Some "Root"%string
  ∧ propertyTypeOf selfExtension 2 ≠ Some "Root"%string
  ∧ fst (detach 2 selfExtension) = inr 2
  ∧ listParents 2 (snd (detach 2 selfExtension)) = [0]
  ∧ isLive (snd (detach 2 selfExtension)) 2 = true
  ∧ outgoing selfExtension 2 = [mkLink 2 "X" 2 2]
  ∧ outgoing (snd (detach 2 selfExtension)) 2 = []
  ∧ listExtensions 2 selfExtension = [2]
  ∧ listExtensions 2 (snd (detach 2 selfExtension)) = []
  ∧ outgoing (snd (detach 2 selfExtension)) 2 ≠ outgoing selfExtension 2.
Proof.
  split_and!; try (vm_compute; reflexivity); vm_compute; discriminate.
Qed.

(** ** Disposal *)

Lemma alter_extensionsOf (f : Property → Property) this g m :
  (∀ p, extensions (f p) = extensions p) →
  extensionsOf (with_nodes (alter f this (nodes g)) g) m = extensionsOf g m.
Proof.
  intros Hf. unfold extensionsOf. cbn [with_nodes nodes].
  destruct (decide (this = m)) as [->|Hne].
  - rewrite lookup_alter_eq. destruct (nodes g !! m); cbn; [apply Hf|done].
  - by rewrite lookup_alter_ne.
Qed.

Lemma isLive_disposed g n : isDisposed g n = true → isLive g n = false.
Proof.
  unfold isDisposed, isLive. destruct (nodes g !! n) as [p|]; [|done].
  by intros ->.
Qed.

(** On a host without extension links, the removal step does nothing. *)
Lemma afterRemoval_no_extensions this ctor g :
  extensionsOf g this = [] → afterRemoval this ctor g = g.
Proof.
  intros Hnil. unfold afterRemoval. rewrite getExtension_is_scan, Hnil. done.
Qed.

(** C3, as the code has it.  [dispose()] on a live node succeeds; then
    [listParents()] is empty, no node lists [n] among its parents, no
    registered link leaves [n], and [n] is marked disposed.  Afterwards
    [detach] and [dispose] on [n] fail with InvalidState and linking [n],
    or attaching a value to it, fails with InvalidOperation, but
    [setExtension(t, null)], [setName] and [setExtras] on [n] return [n]
    with no error. *)
Theorem dispose_severs_and_invalidates (n : nat) (g : PropertyGraph) :
  isLive g n = true →
  ∃ g', dispose n g = (inr tt, g')
    ∧ listParents n g' = []
    ∧ (∀ c, n ∉ listParents c g')
    ∧ outgoing g' n = []
    ∧ isDisposed g' n = true
    ∧ detach n g' = (inl InvalidState, g')
    ∧ dispose n g' = (inl InvalidState, g')
    ∧ (∀ name m, link name n m g' = (inl InvalidOperation, g')
                 ∧ link name m n g' = (inl InvalidOperation, g'))
    ∧ (∀ t e, ∃ g'', setExtension n t (Some e) g' = (inl InvalidOperation, g''))
    ∧ (∀ t, ∃ g'', setExtension n t None g' = (inr n, g''))
    ∧ (∀ name, fst (setName n name g') = inr n)
    ∧ (∀ extras, fst (setExtras n extras g') = inr n)
    ∧ ((∀ l, l ∈ extensionsOf g n → getParent l = n) →
         extensionsOf g' n = []
         ∧ (∀ t, setExtension n t None g' = (inr n, g'))
         ∧ (∀ t e, setExtension n t (Some e) g' = (inl InvalidOperation, g'))).
Proof.
  intros Hlive. pose proof (isLive_not_disposed g n Hlive) as Hd.
  destruct (isLive_is_Some g n Hlive) as [p Hp].
  set (g1 := unlink (λ l, getParent l = n) g).
  set (g2 := unlink (λ l, getChild l = n) g1).
  set (g' := with_nodes (alter (with_disposed true) n (nodes g2)) g2).
  assert (Hlinks : links g' = filter (λ l, getChild l ≠ n)
                                (filter (λ l, getParent l ≠ n) (links g)))
    by reflexivity.
  assert (Hdisp : isDisposed g' n = true).
  { unfold isDisposed, g'. cbn [with_nodes nodes]. rewrite lookup_alter_eq.
    unfold g2, g1. rewrite !unlink_lookup, Hp. reflexivity. }
  assert (Hdead : isLive g' n = false) by by apply isLive_disposed.
  assert (Hrej : ∀ t e, setExtension n t (Some e) g'
                        = (inl InvalidOperation, afterRemoval n t g')).
  { intros t e. apply setExtension_rejected. by rewrite Hdead. }
  exists g'. split_and!.
  - unfold dispose. by rewrite Hd.
  - apply elem_of_nil_inv. intros q Hq.
    apply listGraphParents_elem in Hq as (l & Hl & _ & Hc).
    rewrite Hlinks in Hl. apply list_elem_of_filter in Hl as [Hne _]. by apply Hne.
  - intros c Hq. apply listGraphParents_elem in Hq as (l & Hl & Hq & _).
    rewrite Hlinks in Hl. apply list_elem_of_filter in Hl as [_ Hl].
    apply list_elem_of_filter in Hl as [Hne _]. by apply Hne.
  - unfold outgoing. rewrite Hlinks. apply filter_none, Forall_forall.
    intros l Hl. apply list_elem_of_filter in Hl as [_ Hl].
    by apply list_elem_of_filter in Hl as [Hne _].
  - exact Hdisp.
  - unfold detach, disconnectParents, bind. by rewrite Hdisp.
  - unfold dispose. by rewrite Hdisp.
  - intros name m. unfold link. rewrite Hdead, andb_false_r. done.
  - intros t e. eexists. apply Hrej.
  - intros t. eexists. apply setExtension_null.
  - reflexivity.
  - reflexivity.
  - intros Hown.
    assert (Hnil : extensionsOf g' n = []).
    { unfold g'. rewrite alter_extensionsOf by done.
      unfold g2, g1. rewrite !unlink_extensionsOf.
      rewrite (filter_none _ (extensionsOf g n)); [done|].
      apply Forall_forall. intros l Hl Hne. by apply Hne, Hown. }
    split_and!; [done| |].
    + intros t. by rewrite setExtension_null, afterRemoval_no_extensions.
    + intros t e. by rewrite Hrej, afterRemoval_no_extensions.
Qed.

Lemma dispose_severs_and_invalidates_witness :
  ∃ g', dispose 3 sharedTexture = (inr tt, g')
    ∧ listParents 3 sharedTexture = [0; 1; 2]
    ∧ listParents 4 sharedTexture = [3]
    ∧ listParents 3 g' = []
    ∧ listParents 4 g' = []
    ∧ isDisposed g' 3 = true
    ∧ detach 3 g' = (inl InvalidState, g')
    ∧ link "baseColorTexture" 1 3 g' = (inl InvalidOperation, g')
    ∧ setExtension 3 (mkCtor "VENDOR_x") (Some 4) g' = (inl InvalidOperation, g')
    ∧ setExtension 3 (mkCtor "VENDOR_x") None g' = (inr 3, g').
Proof.
  destruct (dispose_severs_and_invalidates 3 sharedTexture)
    as (g' & Hdis & Hpar & Hch & _ & Hd & Hdet & _ & Hlink & _ & _ & _ & _ & Hown).
  - vm_compute. reflexivity.
  - destruct Hown as (_ & Hnull & Hval).
    { intros l Hl. apply (runAll_owned _ _ owned_emptyGraph) in Hl. tauto. }
    assert (Hg : g' = snd (dispose 3 sharedTexture)) by by rewrite Hdis.
    exists g'. split_and!.
    + exact Hdis.
    + vm_compute. reflexivity.
    + vm_compute. reflexivity.
    + exact Hpar.
    + rewrite Hg. vm_compute. reflexivity.
    + exact Hd.
    + exact Hdet.
    + apply Hlink.
    + apply Hval.
    + apply Hnull.
Defined.

(** C3, as stated, fails: on the disposed node 0, [setExtension(t, null)]
    returns the node and raises nothing, and so do [setName] and
    [setExtras]. *)
Lemma setExtension_null_on_disposed :
  let g := runAll [CallConstruct "Mesh" None "n"; CallDispose 0] emptyGraph in
  fst (dispose 0 (runAll [CallConstruct "Mesh" None "n"] emptyGraph)) = inr tt
  ∧ isDisposed g 0 = true
  ∧ setExtension 0 (mkCtor "VENDOR_x") None g = (inr 0, g)
  ∧ setExtension 0 (mkCtor "VENDOR_x") None g ≠ (inl InvalidState, g)
  ∧ fst (setName 0 "renamed" g) = inr 0.
Proof.
  cbv zeta. split_and!; try (vm_compute; reflexivity).
  rewrite setExtension_null. discriminate.
Qed.

(** C4, as the code has it.  [setExtension] fails only when the link for
    a non-null value is rejected, with InvalidOperation, and the heap is
    then the one its removal step left: unchanged where no extension of
    the token's identifier was attached, and without the links to the
    extension found where one was.  The other mutations are rejected
    before any change: [link], [detach] and [dispose] leave the heap as it
    was when they fail, and [setName] and [setExtras] do not fail. *)
Theorem setExtension_failure_state (this : nat)
    (ctor : ExtensionPropertyConstructor) (g : PropertyGraph) :
  (∀ ext e g', setExtension this ctor ext g = (inl e, g') →
     e = InvalidOperation ∧ g' = afterRemoval this ctor g
     ∧ ∃ x, ext = Some x ∧ isLive g this && isLive g x = false)
  ∧ (∀ ext e g', linksFor g this (EXTENSION_NAME ctor) = [] →
       setExtension this ctor ext g = (inl e, g') → g' = g)
  ∧ (∀ prev x, getExtension this ctor g = Some prev →
       isLive g this && isLive g x = false →
       ∃ g', setExtension this ctor (Some x) g = (inl InvalidOperation, g')
         ∧ prev ∈ listExtensions this g
         ∧ (prev ∉ listExtensions this g')
         ∧ g' ≠ g)
  ∧ (∀ name parent child e g', link name parent child g = (inl e, g') → g' = g)
  ∧ (∀ e g', detach this g = (inl e, g') → g' = g)
  ∧ (∀ e g', dispose this g = (inl e, g') → g' = g)
  ∧ (∀ name, ∃ g', setName this name g = (inr this, g'))
  ∧ (∀ extras, ∃ g', setExtras this extras g = (inr this, g')).
Proof.
  assert (Hfail : ∀ ext e g', setExtension this ctor ext g = (inl e, g') →
     e = InvalidOperation ∧ g' = afterRemoval this ctor g
     ∧ ∃ x, ext = Some x ∧ isLive g this && isLive g x = false).
  { intros [x|] e g'.
    - rewrite setExtension_some. cbv zeta.
      destruct (isLive g this && isLive g x) eqn:Hl; [discriminate|].
      intros [= <- <-]. eauto.
    - rewrite setExtension_null. discriminate. }
  split_and!.
  - exact Hfail.
  - intros ext e g' Hnone Hset. apply Hfail in Hset as (_ & -> & _).
    apply getExtension_None in Hnone. unfold afterRemoval. by rewrite Hnone.
  - intros prev x Hget Hdead.
    destruct (afterRemoval_unlinks this ctor g prev Hget) as (_ & Hin & Hout).
    exists (afterRemoval this ctor g). split_and!; [|done|done|].
    + by apply setExtension_rejected.
    + intros Heq. rewrite Heq in Hout. contradiction.
  - intros name parent child e g'. unfold link.
    destruct (isLive g parent && isLive g child); congruence.
  - intros e g'. unfold detach, disconnectParents, bind, ret.
    destruct (isDisposed g this); congruence.
  - intros e g'. unfold dispose. destruct (isDisposed g this); congruence.
  - intros name. eexists. reflexivity.
  - intros extras. eexists. reflexivity.
Qed.

Lemma setExtension_failure_state_witness :
  ∃ g', setExtension 0 (mkCtor "X") (Some 2) disposedValue = (inl InvalidOperation, g')
    ∧ 1 ∈ listExtensions 0 disposedValue
    ∧ (1 ∉ listExtensions 0 g')
    ∧ g' ≠ disposedValue.
Proof.
  destruct (setExtension_failure_state 0 (mkCtor "X") disposedValue)
    as (_ & _ & Hpartial & _).
  apply (Hpartial 1 2); vm_compute; reflexivity.
Defined.

(** C4, as stated, fails: on host 0, which holds the extension 1 for "X",
    attaching the disposed node 2 under the token "X" fails with
    InvalidOperation after the link to 1 has been removed. *)
Lemma setExtension_fails_after_removal :
  listExtensions 0 disposedValue = [1]
  ∧ isDisposed disposedValue 2 = true
  ∧ fst (setExtension 0 (mkCtor "X") (Some 2) disposedValue) = inl InvalidOperation
  ∧ listExtensions 0 (snd (setExtension 0 (mkCtor "X") (Some 2) disposedValue)) = []
  ∧ links disposedValue = [mkLink 0 "X" 0 1]
  ∧ links (snd (setExtension 0 (mkCtor "X") (Some 2) disposedValue)) = []
  ∧ snd (setExtension 0 (mkCtor "X") (Some 2) disposedValue) ≠ disposedValue.
Proof.
  split_and!; try (vm_compute; reflexivity).
  intros Heq. apply (f_equal links) in Heq. vm_compute in Heq. discriminate.
Qed.

(** * Further properties of the class *)

(** ** Name and extras *)

Lemma alter_field_lookup (f : Property → Property) this g n :
  nodes (with_nodes (alter f this (nodes g)) g) !! n
  = if decide (this = n) then f <$> nodes g !! n else nodes g !! n.
Proof.
  cbn [with_nodes nodes]. destruct (decide (this = n)) as [->|Hne].
  - apply lookup_alter_eq.
  - by apply lookup_alter_ne.
Qed.

Lemma alter_field_twice (f f' : Property → Property) this g :
  with_nodes (alter f' this (nodes (with_nodes (alter f this (nodes g)) g)))
             (with_nodes (alter f this (nodes g)) g)
  = with_nodes (alter (f' ∘ f) this (nodes g)) g.
Proof. unfold with_nodes. cbn [nodes links nextLink]. by rewrite alter_alter_eq. Qed.

Lemma alter_field_ext (f f' : Property → Property) this g :
  (∀ p, f p = f' p) →
  with_nodes (alter f this (nodes g)) g = with_nodes (alter f' this (nodes g)) g.
Proof. intros Hf. unfold with_nodes. f_equal. apply alter_ext. auto. Qed.

(** The scan reads the extension list and the identifiers only. *)
Lemma getExtension_frame g g' h t :
  extensionsOf g' h = extensionsOf g h →
  (∀ n, extensionNameOf g' n = extensionNameOf g n) →
  getExtension h t g' = getExtension h t g.
Proof.
  intros Hext Hname. rewrite !getExtension_is_scan, Hext. clear Hext.
  induction (extensionsOf g h) as [|l ls IH]; [done|].
  cbn [getExtension_scan]. by rewrite Hname, IH.
Qed.

(** X1. [setName] then [getName]: the receiver carries the new name, whatever
    it was called before; the other nodes keep theirs, and nothing else of
    the heap is touched: extras, extension lists, kinds, disposal flags and
    the registry of links are as before. *)
Theorem setName_getName (this : nat) (name : string) (g : PropertyGraph) :
  is_Some (nodes g !! this) →
  getName this (snd (setName this name g)) = Some name
  ∧ (∀ n, n ≠ this → getName n (snd (setName this name g)) = getName n g)
  ∧ (∀ n, getExtras n (snd (setName this name g)) = getExtras n g)
  ∧ (∀ n, extensionsOf (snd (setName this name g)) n = extensionsOf g n)
  ∧ (∀ n t, getExtension n t (snd (setName this name g)) = getExtension n t g)
  ∧ (∀ n, isDisposed (snd (setName this name g)) n = isDisposed g n)
  ∧ links (snd (setName this name g)) = links g.
Proof.
  intros [p Hp].
  assert (Hlook := alter_field_lookup (with_name name) this g).
  change (snd (setName this name g))
    with (with_nodes (alter (with_name name) this (nodes g)) g).
  assert (Hext : ∀ n, extensionsOf (with_nodes (alter (with_name name) this (nodes g)) g) n
                      = extensionsOf g n) by (intros n; by apply alter_extensionsOf).
  assert (Hnm : ∀ n, extensionNameOf (with_nodes (alter (with_name name) this (nodes g)) g) n
                     = extensionNameOf g n).
  { intros n. unfold extensionNameOf. rewrite Hlook.
    destruct (decide (this = n)); [|done]. by destruct (nodes g !! n). }
  split_and!.
  - unfold getName. by rewrite Hlook, decide_True, Hp by done.
  - intros n Hn. unfold getName. by rewrite Hlook, decide_False by done.
  - intros n. unfold getExtras. rewrite Hlook.
    destruct (decide (this = n)); [|done]. by destruct (nodes g !! n).
  - exact Hext.
  - intros n t. by apply getExtension_frame.
  - intros n. unfold isDisposed. rewrite Hlook.
    destruct (decide (this = n)); [|done]. by destruct (nodes g !! n).
  - reflexivity.
Qed.

Lemma setName_getName_witness :
  getName 0 (snd (setName 0 "renamed" twoExtensions)) = Some "renamed"%string
  ∧ getName 1 (snd (setName 0 "renamed" twoExtensions)) = Some "a"%string
  ∧ listExtensions 0 (snd (setName 0 "renamed" twoExtensions)) = [1; 2].
Proof.
  destruct (setName_getName 0 "renamed" twoExtensions) as (Hn & Ho & _ & Hext & _).
  - vm_compute. eauto.
  - split_and!.
    + exact Hn.
    + rewrite Ho by discriminate. vm_compute. reflexivity.
    + unfold listExtensions. rewrite Hext. vm_compute. reflexivity.
Defined.

(** X2. [setExtras] then [getExtras]: the receiver's extras are the new ones,
    the old ones being replaced and not merged; the other nodes keep
    theirs, and names, extension lists, disposal flags and links are as
    before. *)
Theorem setExtras_getExtras (this : nat) (extras : Extras) (g : PropertyGraph) :
  is_Some (nodes g !! this) →
  getExtras this (snd (setExtras this extras g)) = Some extras
  ∧ (∀ n, n ≠ this → getExtras n (snd (setExtras this extras g)) = getExtras n g)
  ∧ (∀ n, getName n (snd (setExtras this extras g)) = getName n g)
  ∧ (∀ n, extensionsOf (snd (setExtras this extras g)) n = extensionsOf g n)
  ∧ (∀ n t, getExtension n t (snd (setExtras this extras g)) = getExtension n t g)
  ∧ (∀ n, isDisposed (snd (setExtras this extras g)) n = isDisposed g n)
  ∧ links (snd (setExtras this extras g)) = links g.
Proof.
  intros [p Hp].
  assert (Hlook := alter_field_lookup (with_extras extras) this g).
  change (snd (setExtras this extras g))
    with (with_nodes (alter (with_extras extras) this (nodes g)) g).
  assert (Hext : ∀ n, extensionsOf (with_nodes (alter (with_extras extras) this (nodes g)) g) n
                      = extensionsOf g n) by (intros n; by apply alter_extensionsOf).
  assert (Hnm : ∀ n, extensionNameOf (with_nodes (alter (with_extras extras) this (nodes g)) g) n
                     = extensionNameOf g n).
  { intros n. unfold extensionNameOf. rewrite Hlook.
    destruct (decide (this = n)); [|done]. by destruct (nodes g !! n). }
  split_and!.
  - unfold getExtras. by rewrite Hlook, decide_True, Hp by done.
  - intros n Hn. unfold getExtras. by rewrite Hlook, decide_False by done.
  - intros n. unfold getName. rewrite Hlook.
    destruct (decide (this = n)); [|done]. by destruct (nodes g !! n).
  - exact Hext.
  - intros n t. by apply getExtension_frame.
  - intros n. unfold isDisposed. rewrite Hlook.
    destruct (decide (this = n)); [|done]. by destruct (nodes g !! n).
  - reflexivity.
Qed.

Lemma setExtras_getExtras_witness :
  getExtras 0 twoExtensions = Some []
  ∧ getExtras 0 (snd (setExtras 0 [("k", "v")]
                        (snd (setExtras 0 [("old", "x")] twoExtensions))))
    = Some [("k"%string, "v"%string)]
  ∧ getName 0 (snd (setExtras 0 [("k", "v")] twoExtensions)) = Some "host"%string.
Proof.
  destruct (setExtras_getExtras 0 [("k"%string, "v"%string)]
              (snd (setExtras 0 [("old"%string, "x"%string)] twoExtensions)))
    as (Hnew & _).
  { vm_compute. eauto. }
  destruct (setExtras_getExtras 0 [("k"%string, "v"%string)] twoExtensions)
    as (_ & _ & Hname & _).
  { vm_compute. eauto. }
  split_and!.
  - vm_compute. reflexivity.
  - exact Hnew.
  - rewrite Hname. vm_compute. reflexivity.
Defined.

(** X3. The two setters commute, a setter overwrites what the same setter
    wrote before, and setting the name a node already has changes
    nothing. *)
Theorem setters_compose (this : nat) (g : PropertyGraph) :
  (∀ name extras,
     snd (setExtras this extras (snd (setName this name g)))
     = snd (setName this name (snd (setExtras this extras g))))
  ∧ (∀ a b, snd (setName this b (snd (setName this a g))) = snd (setName this b g))
  ∧ (∀ a b, snd (setExtras this b (snd (setExtras this a g))) = snd (setExtras this b g))
  ∧ (∀ name, getName this g = Some name → snd (setName this name g) = g)
  ∧ (∀ extras, getExtras this g = Some extras → snd (setExtras this extras g) = g).
Proof.
  assert (Hid : ∀ f, (∀ p, nodes g !! this = Some p → f p = p) →
                     with_nodes (alter f this (nodes g)) g = g).
  { intros f Hf. unfold with_nodes. rewrite alter_id by done. by destruct g. }
  split_and!.
  - intros name extras.
    change (snd (setExtras this extras (snd (setName this name g))))
      with (with_nodes (alter (with_extras extras) this
              (nodes (with_nodes (alter (with_name name) this (nodes g)) g)))
              (with_nodes (alter (with_name name) this (nodes g)) g)).
    change (snd (setName this name (snd (setExtras this extras g))))
      with (with_nodes (alter (with_name name) this
              (nodes (with_nodes (alter (with_extras extras) this (nodes g)) g)))
              (with_nodes (alter (with_extras extras) this (nodes g)) g)).
    rewrite !alter_field_twice. by apply alter_field_ext.
  - intros a b.
    change (snd (setName this b (snd (setName this a g))))
      with (with_nodes (alter (with_name b) this
              (nodes (with_nodes (alter (with_name a) this (nodes g)) g)))
              (with_nodes (alter (with_name a) this (nodes g)) g)).
    rewrite alter_field_twice. by apply alter_field_ext.
  - intros a b.
    change (snd (setExtras this b (snd (setExtras this a g))))
      with (with_nodes (alter (with_extras b) this
              (nodes (with_nodes (alter (with_extras a) this (nodes g)) g)))
              (with_nodes (alter (with_extras a) this (nodes g)) g)).
    rewrite alter_field_twice. by apply alter_field_ext.
  - intros name Hname. apply Hid. intros p Hp.
    unfold getName in Hname. rewrite Hp in Hname. injection Hname as <-.
    by destruct p.
  - intros extras Hextras. apply Hid. intros p Hp.
    unfold getExtras in Hextras. rewrite Hp in Hextras. injection Hextras as <-.
    by destruct p.
Qed.

Lemma setters_compose_witness :
  snd (setName 0 "host" twoExtensions) = twoExtensions
  ∧ getName 0 (snd (setName 0 "b" (snd (setName 0 "a" twoExtensions)))) = Some "b"%string.
Proof.
  destruct (setters_compose 0 twoExtensions) as (_ & Hover & _ & Hsame & _).
  split.
  - apply Hsame. vm_compute. reflexivity.
  - rewrite Hover. vm_compute. reflexivity.
Defined.

(** ** Construction *)

(** X4. The constructor returns an address the graph did not hold; the new
    node is live, carries the name given, empty extras and no extension
    (every lookup by token is null), and the nodes and links that existed
    are as they were. *)
Theorem construct_fresh (type : string) (extName : option string) (name : string)
    (g : PropertyGraph) :
  ∃ this g', construct type extName name g = (inr this, g')
    ∧ nodes g !! this = None
    ∧ getName this g' = Some name
    ∧ getExtras this g' = Some []
    ∧ listExtensions this g' = []
    ∧ (∀ t, getExtension this t g' = None)
    ∧ isLive g' this = true
    ∧ propertyTypeOf g' this = Some type
    ∧ extensionNameOf g' this = extName
    ∧ (∀ n, n ≠ this → nodes g' !! n = nodes g !! n)
    ∧ (∀ n, is_Some (nodes g !! n) → n ≠ this)
    ∧ links g' = links g.
Proof.
  set (this := fresh (dom (nodes g))).
  assert (Hfresh : nodes g !! this = None)
    by apply not_elem_of_dom, is_fresh.
  exists this, (with_nodes (<[this:=mkProperty type extName name [] [] false]> (nodes g)) g).
  assert (Hnew : nodes (with_nodes (<[this:=mkProperty type extName name [] [] false]>
                                      (nodes g)) g) !! this
                 = Some (mkProperty type extName name [] [] false))
    by apply lookup_insert_eq.
  assert (Hext : extensionsOf (with_nodes (<[this:=mkProperty type extName name [] [] false]>
                                      (nodes g)) g) this = [])
    by (unfold extensionsOf; by rewrite Hnew).
  split_and!; try done.
  - unfold getName. by rewrite Hnew.
  - unfold getExtras. by rewrite Hnew.
  - unfold listExtensions. by rewrite Hext.
  - intros t. by rewrite getExtension_is_scan, Hext.
  - unfold isLive. by rewrite Hnew.
  - unfold propertyTypeOf. by rewrite Hnew.
  - unfold extensionNameOf. by rewrite Hnew.
  - intros n Hn. cbn [with_nodes nodes]. by apply lookup_insert_ne.
  - intros n Hn ->. rewrite Hfresh in Hn. by destruct Hn.
Qed.

(** ** Lookup and listing *)

(** [getExtension] answers with the child of the first link for the
    token's identifier. *)
Lemma getExtension_head h t g :
  getExtension h t g = getChild <$> head (linksFor g h (EXTENSION_NAME t)).
Proof.
  rewrite getExtension_is_scan. unfold linksFor.
  induction (extensionsOf g h) as [|l ls IH]; [done|].
  cbn [getExtension_scan]. rewrite filter_cons.
  by destruct (decide (extensionNameOf g (getChild l) = Some (EXTENSION_NAME t))).
Qed.

(** X5. What [getExtension] returns is one of [listExtensions] and carries the
    token's identifier; it returns null only when no listed extension
    carries it, and always on a host that lists none. *)
Theorem getExtension_listed (h : nat) (t : ExtensionPropertyConstructor)
    (g : PropertyGraph) :
  (∀ e, getExtension h t g = Some e →
     e ∈ listExtensions h g ∧ extensionNameOf g e = Some (EXTENSION_NAME t))
  ∧ (getExtension h t g = None ↔
       ∀ e, e ∈ listExtensions h g → extensionNameOf g e ≠ Some (EXTENSION_NAME t))
  ∧ (listExtensions h g = [] → getExtension h t g = None)
  ∧ length (listExtensions h g) = length (extensionsOf g h).
Proof.
  split_and!.
  - intros e Hget. apply getExtension_Some_linksFor in Hget as (Hname & l & Hl & <-).
    split; [|done]. apply list_elem_of_filter in Hl as [_ Hl].
    unfold listExtensions. by apply list_elem_of_fmap_2.
  - rewrite getExtension_is_scan, scan_None, Forall_forall.
    unfold listExtensions. split.
    + intros Hall e He. apply list_elem_of_fmap in He as (l & -> & Hl). by apply Hall.
    + intros Hall l Hl. apply Hall. by apply list_elem_of_fmap_2.
  - unfold listExtensions. intros Hnil. apply fmap_nil_inv in Hnil.
    by rewrite getExtension_is_scan, Hnil.
  - unfold listExtensions. apply length_fmap.
Qed.

(** ** Attaching, replacing and removing *)

(** X6. [setExtension] then [getExtension]: with a live host and a live value
    of the token's identifier, the host having at most one extension of
    that identifier before, the lookup by the token returns the value,
    which is the last of [listExtensions] and the only extension of its
    identifier. *)
Theorem setExtension_getExtension (h e : nat) (t : ExtensionPropertyConstructor)
    (g : PropertyGraph) :
  isLive g h = true → isLive g e = true →
  extensionNameOf g e = Some (EXTENSION_NAME t) →
  length (linksFor g h (EXTENSION_NAME t)) ≤ 1 →
  fst (setExtension h t (Some e) g) = inr h
  ∧ getExtension h t (snd (setExtension h t (Some e) g)) = Some e
  ∧ last (listExtensions h (snd (setExtension h t (Some e) g))) = Some e
  ∧ length (linksFor (snd (setExtension h t (Some e) g)) h (EXTENSION_NAME t)) = 1.
Proof.
  intros Hh He Hname Hone.
  rewrite (setExtension_attaches h t e g Hh He). cbn [fst snd].
  pose proof (setExtension_linksFor_token h t e g Hh Hname Hone) as Hl.
  split_and!; [done| | |].
  - by rewrite (linksFor_singleton_getExtension _ _ _ _ Hl).
  - unfold listExtensions. rewrite attached_after_extensionsOf by done.
    rewrite fmap_snoc. apply last_snoc.
  - by rewrite Hl.
Qed.

Lemma setExtension_getExtension_witness :
  fst (setExtension 0 (mkCtor "A") (Some 3) twoExtensions) = inr 0
  ∧ getExtension 0 (mkCtor "A") twoExtensions = Some 1
  ∧ getExtension 0 (mkCtor "A") (snd (setExtension 0 (mkCtor "A") (Some 3) twoExtensions))
    = Some 3
  ∧ last (listExtensions 0 (snd (setExtension 0 (mkCtor "A") (Some 3) twoExtensions)))
    = Some 3.
Proof.
  destruct (setExtension_getExtension 0 3 (mkCtor "A") twoExtensions)
    as (Hret & Hget & Hlast & _).
  - vm_compute. reflexivity.
  - vm_compute. reflexivity.
  - vm_compute. reflexivity.
  - vm_compute. lia.
  - split_and!; [exact Hret| |exact Hget|exact Hlast]. vm_compute. reflexivity.
Defined.

(** X7. A call of [setExtension] does not disturb the extensions of the other
    identifiers: for an identifier that is neither the token's nor the
    value's, the host keeps the same links in the same order, and the
    lookup by a token of that identifier answers as before, whether the
    call returns or throws. *)
Theorem setExtension_other_identifiers (h : nat) (ctor : ExtensionPropertyConstructor)
    (ext : option nat) (id : string) (g : PropertyGraph) :
  id ≠ EXTENSION_NAME ctor →
  (∀ e, ext = Some e → extensionNameOf g e ≠ Some id) →
  linksFor (snd (setExtension h ctor ext g)) h id = linksFor g h id
  ∧ ∀ t, EXTENSION_NAME t = id →
      getExtension h t (snd (setExtension h ctor ext g)) = getExtension h t g.
Proof.
  intros Hid Hext.
  assert (Hlinks : linksFor (snd (setExtension h ctor ext g)) h id = linksFor g h id).
  { destruct ext as [e|].
    - rewrite setExtension_some. cbv zeta.
      destruct (isLive g h && isLive g e) eqn:Hlive; cbn [snd];
        [|by apply afterRemoval_others].
      apply andb_prop in Hlive as [Hh _].
      pose proof (afterRemoval_frame h ctor g) as (Hn & _).
      rewrite attached_linksFor_this by by apply afterRemoval_is_Some.
      rewrite afterRemoval_others by done. cbn [newLink getChild].
      rewrite decide_False; [apply app_nil_r|]. rewrite Hn. by apply Hext.
    - rewrite setExtension_null. cbn [snd]. by apply afterRemoval_others. }
  split; [done|]. intros t <-. by rewrite !getExtension_head, Hlinks.
Qed.

Lemma setExtension_other_identifiers_witness :
  getExtension 0 (mkCtor "B") (snd (setExtension 0 (mkCtor "A") (Some 3) twoExtensions))
  = Some 2
  ∧ getExtension 0 (mkCtor "B") (snd (setExtension 0 (mkCtor "A") None twoExtensions))
    = Some 2.
Proof.
  destruct (setExtension_other_identifiers 0 (mkCtor "A") (Some 3) "B" twoExtensions)
    as [_ Hset].
  { discriminate. }
  { intros e [= <-]. vm_compute. discriminate. }
  destruct (setExtension_other_identifiers 0 (mkCtor "A") None "B" twoExtensions)
    as [_ Hnull].
  { discriminate. }
  { discriminate. }
  split.
  - rewrite (Hset (mkCtor "B")) by reflexivity. vm_compute. reflexivity.
  - rewrite (Hnull (mkCtor "B")) by reflexivity. vm_compute. reflexivity.
Defined.

(** X8. Attaching the same value twice does not list it twice: after the
    second call [listExtensions] is what it was after the first. *)
Theorem setExtension_again (h e : nat) (t : ExtensionPropertyConstructor)
    (g : PropertyGraph) :
  isLive g h = true → isLive g e = true →
  extensionNameOf g e = Some (EXTENSION_NAME t) →
  length (linksFor g h (EXTENSION_NAME t)) ≤ 1 →
  listExtensions h (snd (setExtension h t (Some e)
                           (snd (setExtension h t (Some e) g))))
  = listExtensions h (snd (setExtension h t (Some e) g)).
Proof.
  intros Hh He Hname Hone.
  rewrite (setExtension_attaches h t e g Hh He). cbn [snd].
  set (a0 := afterRemoval h t g). set (l1 := newLink h e a0).
  set (g1 := attached h l1 a0).
  pose proof (afterRemoval_frame h t g) as (Hn0 & _ & _ & Hlive0 & _).
  pose proof (attached_frame h l1 a0) as (Hn1 & _ & _ & Hlive1 & _).
  assert (Hh1 : isLive g1 h = true) by (unfold g1; by rewrite Hlive1, Hlive0).
  assert (He1 : isLive g1 e = true) by (unfold g1; by rewrite Hlive1, Hlive0).
  rewrite (setExtension_attaches h t e g1 Hh1 He1). cbn [snd].
  assert (Hl1 : linksFor g1 h (EXTENSION_NAME t) = [l1])
    by by apply setExtension_linksFor_token.
  assert (Hget1 : getExtension h t g1 = Some e)
    by apply (linksFor_singleton_getExtension _ _ _ _ Hl1).
  assert (Hext1 : extensionsOf g1 h = extensionsOf a0 h ++ [l1])
    by (apply attached_extensionsOf_this; by apply afterRemoval_is_Some).
  unfold listExtensions. rewrite attached_after_extensionsOf, Hget1, Hext1 by done.
  rewrite filter_app, filter_cons_False, filter_nil, app_nil_r
    by (intros Hc; by apply Hc).
  rewrite !fmap_snoc. cbn [newLink getChild l1]. f_equal. f_equal.
  apply filter_all, Forall_forall. intros l Hl Hc.
  assert (Hin : l ∈ linksFor a0 h (EXTENSION_NAME t)).
  { apply list_elem_of_filter. split; [|done]. by rewrite Hc, Hn0. }
  unfold a0 in Hin. rewrite afterRemoval_clears in Hin by done.
  by apply not_elem_of_nil in Hin.
Qed.

Lemma setExtension_again_witness :
  listExtensions 0 (snd (setExtension 0 (mkCtor "A") (Some 3)
                           (snd (setExtension 0 (mkCtor "A") (Some 3) twoExtensions))))
  = [2; 3].
Proof.
  rewrite (setExtension_again 0 3 (mkCtor "A") twoExtensions).
  - vm_compute. reflexivity.
  - vm_compute. reflexivity.
  - vm_compute. reflexivity.
  - vm_compute. reflexivity.
  - vm_compute. lia.
Defined.



(** ** What a call leaves alone *)

Lemma unlink_getName (dead : Link → Prop) `{!∀ l, Decision (dead l)} g n :
  getName n (unlink dead g) = getName n g.
Proof. unfold getName. rewrite unlink_lookup. by destruct (nodes g !! n). Qed.

Lemma unlink_getExtras (dead : Link → Prop) `{!∀ l, Decision (dead l)} g n :
  getExtras n (unlink dead g) = getExtras n g.
Proof. unfold getExtras. rewrite unlink_lookup. by destruct (nodes g !! n). Qed.

Lemma attached_getName this l g n : getName n (attached this l g) = getName n g.
Proof.
  unfold getName. rewrite attached_lookup.
  destruct (decide (this = n)); [|done]. by destruct (nodes g !! n).
Qed.

Lemma attached_getExtras this l g n : getExtras n (attached this l g) = getExtras n g.
Proof.
  unfold getExtras. rewrite attached_lookup.
  destruct (decide (this = n)); [|done]. by destruct (nodes g !! n).
Qed.

Lemma afterRemoval_getName this ctor g n :
  getName n (afterRemoval this ctor g) = getName n g.
Proof.
  unfold afterRemoval. destruct (getExtension this ctor g); [|done].
  apply unlink_getName.
Qed.

Lemma afterRemoval_getExtras this ctor g n :
  getExtras n (afterRemoval this ctor g) = getExtras n g.
Proof.
  unfold afterRemoval. destruct (getExtension this ctor g); [|done].
  apply unlink_getExtras.
Qed.

(** The removal step leaves the extension lists of the other hosts as they
    are, a link being held by its parent only. *)
Lemma afterRemoval_other_host this ctor g h :
  owned g → h ≠ this →
  extensionsOf (afterRemoval this ctor g) h = extensionsOf g h.
Proof.
  intros Hown Hne. unfold afterRemoval.
  destruct (getExtension this ctor g) as [prev|]; [|done].
  unfold removeGraphChild. cbn [snd]. rewrite unlink_extensionsOf.
  apply filter_all, Forall_forall. intros l Hl Hin.
  apply list_elem_of_filter in Hin as [_ Hin].
  destruct (Hown h l Hl) as (Hp & _). destruct (Hown this l Hin) as (Hp' & _).
  congruence.
Qed.

(** X10. In every heap reached by calls of the class, a call of [setExtension],
    returning or throwing, changes no name, no extras, no kind and no
    disposal flag, creates and deletes no node, and leaves the extension
    list of every host but the receiver, and what [getExtension] answers
    there, as they were. *)
Theorem setExtension_leaves_others (cs : list Call) (this : nat)
    (ctor : ExtensionPropertyConstructor) (ext : option nat) :
  (∀ n, getName n (snd (setExtension this ctor ext (runAll cs emptyGraph)))
        = getName n (runAll cs emptyGraph))
  ∧ (∀ n, getExtras n (snd (setExtension this ctor ext (runAll cs emptyGraph)))
          = getExtras n (runAll cs emptyGraph))
  ∧ (∀ n, isDisposed (snd (setExtension this ctor ext (runAll cs emptyGraph))) n
          = isDisposed (runAll cs emptyGraph) n)
  ∧ (∀ n, propertyTypeOf (snd (setExtension this ctor ext (runAll cs emptyGraph))) n
          = propertyTypeOf (runAll cs emptyGraph) n)
  ∧ (∀ n, is_Some (nodes (snd (setExtension this ctor ext (runAll cs emptyGraph))) !! n)
          ↔ is_Some (nodes (runAll cs emptyGraph) !! n))
  ∧ (∀ h, h ≠ this →
       extensionsOf (snd (setExtension this ctor ext (runAll cs emptyGraph))) h
       = extensionsOf (runAll cs emptyGraph) h)
  ∧ (∀ h t, h ≠ this →
       getExtension h t (snd (setExtension this ctor ext (runAll cs emptyGraph)))
       = getExtension h t (runAll cs emptyGraph)).
Proof.
  set (g := runAll cs emptyGraph).
  assert (Hown : owned g) by apply runAll_owned, owned_emptyGraph.
  pose proof (setExtension_frame this ctor ext g) as (Hn & Ht & Hd & _).
  pose proof (afterRemoval_frame this ctor g) as (_ & _ & _ & _ & Hs & _).
  assert (Hext : ∀ h, h ≠ this →
     extensionsOf (snd (setExtension this ctor ext g)) h = extensionsOf g h).
  { intros h Hne. destruct ext as [e|].
    - rewrite setExtension_some. cbv zeta.
      destruct (isLive g this && isLive g e); cbn [snd].
      + rewrite attached_extensionsOf_other by done. by apply afterRemoval_other_host.
      + by apply afterRemoval_other_host.
    - rewrite setExtension_null. by apply afterRemoval_other_host. }
  split_and!; try done.
  - intros n. destruct ext as [e|].
    + rewrite setExtension_some. cbv zeta.
      destruct (isLive g this && isLive g e); cbn [snd];
        by rewrite ?attached_getName, afterRemoval_getName.
    + rewrite setExtension_null. apply afterRemoval_getName.
  - intros n. destruct ext as [e|].
    + rewrite setExtension_some. cbv zeta.
      destruct (isLive g this && isLive g e); cbn [snd];
        by rewrite ?attached_getExtras, afterRemoval_getExtras.
    + rewrite setExtension_null. apply afterRemoval_getExtras.
  - intros n. destruct ext as [e|].
    + rewrite setExtension_some. cbv zeta.
      destruct (isLive g this && isLive g e); cbn [snd]; [|apply Hs].
      pose proof (attached_frame this (newLink this e (afterRemoval this ctor g))
                    (afterRemoval this ctor g)) as (_ & _ & _ & _ & Hs').
      by rewrite Hs'.
    + rewrite setExtension_null. apply Hs.
  - intros h t Hne. apply getExtension_frame; [by apply Hext|done].
Qed.

(** ** Extensions and parents *)

(** X11. In every heap reached by calls of the class, a listed extension is a
    node of the graph and has its host among its parents. *)
Theorem listed_extension_has_parent (cs : list Call) (h e : nat) :
  e ∈ listExtensions h (runAll cs emptyGraph) →
  h ∈ listParents e (runAll cs emptyGraph)
  ∧ is_Some (nodes (runAll cs emptyGraph) !! e).
Proof.
  intros He. unfold listExtensions in He.
  apply list_elem_of_fmap in He as (l & -> & Hl).
  destruct (runAll_owned cs emptyGraph owned_emptyGraph h l Hl) as (Hp & Hreg & Hc).
  split; [|done]. apply listGraphParents_elem. eauto.
Qed.

Lemma listed_extension_has_parent_witness :
  0 ∈ listParents 2 twoExtensions ∧ is_Some (nodes twoExtensions !! 2).
Proof.
  apply (listed_extension_has_parent
           [CallConstruct "Mesh" None "host";
            CallConstruct "ExtA" (Some "A"%string) "a";
            CallConstruct "ExtB" (Some "B"%string) "b";
            CallConstruct "ExtA" (Some "A"%string) "a2";
            CallSetExtension 0 (mkCtor "A") (Some 1);
            CallSetExtension 0 (mkCtor "B") (Some 2)] 0 2).
  apply (bool_decide_unpack _). vm_compute. exact I.
Defined.

(** ** Detaching *)

Lemma unlink_ext (P Q : Link → Prop) `{!∀ l, Decision (P l), !∀ l, Decision (Q l)} g :
  (∀ l, P l ↔ Q l) → unlink P g = unlink Q g.
Proof.
  intros HPQ.
  assert (Hf : ∀ ls : list Link, filter (λ l, ¬ P l) ls = filter (λ l, ¬ Q l) ls).
  { intros ls. apply list_filter_iff. intros l. specialize (HPQ l). tauto. }
  unfold unlink. f_equal; [|apply Hf].
  apply map_fmap_ext. intros i p _. by rewrite Hf.
Qed.

Lemma unlink_idem (P : Link → Prop) `{!∀ l, Decision (P l)} g :
  unlink P (unlink P g) = unlink P g.
Proof.
  assert (Hf : ∀ ls : list Link,
            filter (λ l, ¬ P l) (filter (λ l, ¬ P l) ls) = filter (λ l, ¬ P l) ls).
  { intros ls. rewrite list_filter_filter. apply list_filter_iff. tauto. }
  unfold unlink. cbn [nodes links nextLink]. f_equal; [|apply Hf].
  rewrite <- map_fmap_compose. apply map_fmap_ext. intros i p _.
  unfold compose, with_extensions. cbn [extensions propertyType extensionName
    _name _extras _disposed]. by rewrite Hf.
Qed.

Lemma detach_unfold n g :
  isDisposed g n = false →
  detach n g
  = (inr n, unlink (λ l, getChild l = n
       ∧ bool_decide (propertyTypeOf g (getParent l) ≠ Some "Root"%string) = true) g).
Proof. intros Hd. unfold detach, disconnectParents, bind, ret. by rewrite Hd. Qed.

(** X12. Detaching twice is detaching once: the second [detach] returns the
    node and changes nothing. *)
Theorem detach_twice (n : nat) (g : PropertyGraph) :
  isDisposed g n = false →
  detach n (snd (detach n g)) = (inr n, snd (detach n g)).
Proof.
  intros Hd. rewrite (detach_unfold n g Hd). cbn [snd].
  rewrite detach_unfold by by rewrite unlink_isDisposed.
  f_equal. etrans; [|apply unlink_idem].
  apply unlink_ext. intros l. by rewrite unlink_propertyTypeOf.
Qed.

Lemma detach_twice_witness :
  detach 3 (snd (detach 3 sharedTexture)) = (inr 3, snd (detach 3 sharedTexture))
  ∧ snd (detach 3 sharedTexture) ≠ sharedTexture.
Proof.
  split.
  - apply detach_twice. vm_compute. reflexivity.
  - intros Heq. apply (f_equal links) in Heq. vm_compute in Heq. discriminate.
Defined.

(** X13. In every heap reached by calls of the class, detaching an extension
    node takes it off the extension list of a host that is not the Root,
    the other extensions staying in their order; the extension list of a
    Root host is left as it is. *)
Theorem detach_unlinks_extension (cs : list Call) (h e : nat) :
  isDisposed (runAll cs emptyGraph) e = false →
  (propertyTypeOf (runAll cs emptyGraph) h ≠ Some "Root"%string →
     listExtensions h (snd (detach e (runAll cs emptyGraph)))
     = filter (λ x, x ≠ e) (listExtensions h (runAll cs emptyGraph))
     ∧ e ∉ listExtensions h (snd (detach e (runAll cs emptyGraph))))
  ∧ (propertyTypeOf (runAll cs emptyGraph) h = Some "Root"%string →
       extensionsOf (snd (detach e (runAll cs emptyGraph))) h
       = extensionsOf (runAll cs emptyGraph) h).
Proof.
  set (g := runAll cs emptyGraph). intros Hd.
  assert (Hown : owned g) by apply runAll_owned, owned_emptyGraph.
  rewrite (detach_unfold e g Hd). cbn [snd].
  split.
  - intros Hroot.
    assert (Hlist : listExtensions h (unlink (λ l, getChild l = e
         ∧ bool_decide (propertyTypeOf g (getParent l) ≠ Some "Root"%string) = true) g)
       = filter (λ x, x ≠ e) (listExtensions h g)).
    { unfold listExtensions. rewrite unlink_extensionsOf, filter_fmap_comm. f_equal.
      apply filter_ext_in. intros l Hl. destruct (Hown h l Hl) as (Hp & _).
      rewrite Hp, bool_decide_eq_true. tauto. }
    split; [done|]. rewrite Hlist. intros Hin.
    apply list_elem_of_filter in Hin as [Hne _]. by apply Hne.
  - intros Hroot. rewrite unlink_extensionsOf. apply filter_all, Forall_forall.
    intros l Hl [_ Hdead]. destruct (Hown h l Hl) as (Hp & _).
    rewrite Hp, bool_decide_eq_true in Hdead. by apply Hdead.
Qed.

Lemma detach_unlinks_extension_witness :
  listExtensions 3 sharedTexture = [4]
  ∧ listExtensions 3 (snd (detach 4 sharedTexture)) = []
  ∧ isLive (snd (detach 4 sharedTexture)) 4 = true.
Proof.
  destruct (detach_unlinks_extension
    [CallConstruct "Root" None "root";
     CallConstruct "Material" None "matA";
     CallConstruct "Material" None "matB";
     CallConstruct "Texture" None "tex";
     CallConstruct "Ext" (Some "VENDOR_x"%string) "ext";
     CallLink "textures" 0 3;
     CallLink "baseColorTexture" 1 3;
     CallLink "emissiveTexture" 2 3;
     CallSetExtension 3 (mkCtor "VENDOR_x") (Some 4)] 3 4) as [Hhost _].
  - vm_compute. reflexivity.
  - destruct Hhost as [Hlist _].
    { vm_compute. discriminate. }
    split_and!.
    + vm_compute. reflexivity.
    + etrans; [exact Hlist|]. vm_compute. reflexivity.
    + vm_compute. reflexivity.
Defined.

(** ** Attaching and parents *)

(** X14. A successful [setExtension] with a value makes the host a parent of
    the value, under any token; the parents of a node that is neither the
    value nor the extension found under the token are as before. *)
Theorem setExtension_parents (h e : nat) (ctor : ExtensionPropertyConstructor)
    (g : PropertyGraph) :
  isLive g h = true → isLive g e = true →
  h ∈ listParents e (snd (setExtension h ctor (Some e) g))
  ∧ ∀ m, m ≠ e → getExtension h ctor g ≠ Some m →
      listParents m (snd (setExtension h ctor (Some e) g)) = listParents m g.
Proof.
  intros Hh He. rewrite (setExtension_attaches h ctor e g Hh He). cbn [snd].
  split.
  - apply listGraphParents_elem. exists (newLink h e (afterRemoval h ctor g)).
    split_and!; [|done|done]. cbn [attached links]. apply elem_of_app. right. left.
  - intros m Hm Hprev. unfold listParents, listGraphParents. cbn [attached links].
    rewrite filter_app, filter_cons_False, filter_nil, app_nil_r by by cbn.
    do 2 f_equal. unfold afterRemoval.
    destruct (getExtension h ctor g) as [prev|]; [|done].
    unfold removeGraphChild. cbn [snd]. rewrite unlink_links, list_filter_filter.
    apply list_filter_iff. intros l. split; [tauto|]. intros Hc. split; [done|].
    intros Hin. apply list_elem_of_filter in Hin as [Hp _]. congruence.
Qed.

Lemma setExtension_parents_witness :
  listParents 3 twoExtensions = []
  ∧ 0 ∈ listParents 3 (snd (setExtension 0 (mkCtor "A") (Some 3) twoExtensions))
  ∧ listParents 2 (snd (setExtension 0 (mkCtor "A") (Some 3) twoExtensions)) = [0].
Proof.
  destruct (setExtension_parents 0 3 (mkCtor "A") twoExtensions) as [Hnew Hold].
  - vm_compute. reflexivity.
  - vm_compute. reflexivity.
  - split_and!.
    + vm_compute. reflexivity.
    + exact Hnew.
    + rewrite Hold.
      * vm_compute. reflexivity.
      * discriminate.
      * vm_compute. discriminate.
Defined.
